(** * Cyclic days-off workforce scheduling

    A shallow embedding of the workforce-scheduling cells of
    [logistics_classification.ipynb]: the circular list of days, the
    working-day and exclusion windows sliced from it, the PuLP model built
    from them, and the schedule table derived from a solved model.

    Python integers that hold days and list indices are [nat] (they all come
    from [range(7)] and sums with non-negative offsets); staffing levels and
    variable values are [Z].  A list index [l[j]] that may raise
    [IndexError], a dictionary access that may raise [KeyError] and [int(..)]
    on a character are computations in the [option] monad. *)

From Stdlib Require Import Ascii String.
From stdpp Require Import base numbers option list sorting gmap strings pretty.

Local Open Scope Z_scope.

(** ** Python and itertools primitives used by the notebook *)
Module Py.

(** [range(a, b)] *)
Definition range (a b : nat) : list nat := seq a (b - a).

(** [chain.from_iterable(repeat(tuple(iterable), n))] *)
Definition ncycles {A} (iterable : list A) (n : nat) : list A :=
  mjoin (replicate n iterable).

(** [l[j]] for a non-negative [j]: [None] stands for [IndexError]. *)
Definition index {A} (l : list A) (j : nat) : option A := l !! j.

(** [str(i)] for a non-negative integer. *)
Definition str (i : nat) : string := pretty i.

(** [s[-1]]: the last character, [None] (IndexError) on the empty string. *)
Definition last_char (s : string) : option ascii :=
  last (list_ascii_of_string s).

(** [int(c)] for a one-character string: [None] stands for [ValueError]. *)
Definition int_of_char (c : ascii) : option nat :=
  let n := nat_of_ascii c in
  if decide (48 ≤ n ∧ n ≤ 57)%nat then Some (n - 48)%nat else None.

(** [sum] of a list of integers. *)
Definition sum (l : list Z) : Z := foldr Z.add 0 l.

End Py.

(** ** Network parameters and the circular list of days *)

(** staff needed for a day *)
Definition n_staff : list Z := [31; 45; 40; 40; 48; 30; 20].

Definition jours : list string :=
  ["Monday"; "Tuesday"; "Wednesday"; "Thursday"; "Friday"; "Saturday"; "Sunday"].

Definition n_days : list nat := Py.range 0 7.

Definition n_days_c : list nat := Py.ncycles n_days 3.

(** [[n_days_c[j] for j in range(a, b)]] *)
Definition window (a b : nat) : option (list nat) :=
  mapM (Py.index n_days_c) (Py.range a b).

(** Working days:
    [list_in = [[n_days_c[j] for j in range(i, i + 5)] for i in n_days_c]] *)
Definition list_in : option (list (list nat)) :=
  mapM (λ i, window i (i + 5)) n_days_c.

(** Workers off by shift for each day:
    [list_excl = [[n_days_c[j] for j in range(i + 1, i + 3)] for i in n_days_c]] *)
Definition list_excl : option (list (list nat)) :=
  mapM (λ i, window (i + 1) (i + 3)) n_days_c.

(** ** The part of PuLP the notebook uses

    The solver library is an external collaborator.  Its data (variables,
    affine expressions, constraints, problems) is modelled as records; the
    solver's result is a valuation giving each variable, by name, its
    [varValue]. *)
Module Pulp.

Inductive category := Continuous | Integer | Binary.

Inductive sense := LpMinimize | LpMaximize.

Record LpVariable := {
  name : string;
  lowBound : option Z;
  upBound : option Z;
  cat : category }.

#[global] Instance category_eq_dec : EqDecision category.
Proof. solve_decision. Defined.

#[global] Instance LpVariable_eq_dec : EqDecision LpVariable.
Proof. solve_decision. Defined.

(** A linear expression with constant 0: its terms (variable, coefficient). *)
Definition LpAffineExpression := list (LpVariable * Z).

(** [lpSum] of a list of variables: each with coefficient 1. *)
Definition lpSum (vars : list LpVariable) : LpAffineExpression :=
  (λ v, (v, 1)) <$> vars.

(** The constraint [lhs >= rhs]. *)
Record LpConstraint := { lhs : LpAffineExpression; rhs : Z }.

Record LpProblem := {
  problem_name : string;
  problem_sense : sense;
  objective : LpAffineExpression;
  constraints : list LpConstraint }.

(** [LpVariable.dicts(name, indices, lowBound=.., cat=..)]: the dictionary
    from each index [i] to the variable named [name + "_" + str(i)]. *)
Definition dicts_entry (prefix : string) (low : option Z) (c : category)
    (i : nat) : LpVariable :=
  {| name := prefix +:+ "_" +:+ Py.str i;
     lowBound := low; upBound := None; cat := c |}.

Definition dicts (prefix : string) (indices : list nat)
    (low : option Z) (c : category) : gmap nat LpVariable :=
  list_to_map ((λ i, (i, dicts_entry prefix low c i)) <$> indices).

(** Problem names may not hold spaces: they are converted to ['_']. *)
Fixpoint no_spaces (s : string) : string :=
  match s with
  | EmptyString => EmptyString
  | String c rest =>
      String (if Ascii.eqb c " "%char then "_"%char else c) (no_spaces rest)
  end.

Definition vars_of (e : LpAffineExpression) : list LpVariable := e.*1.

(** [prob.variables()]: the variables of the objective and of the
    constraints, each once, sorted by name. *)
Definition variables (p : LpProblem) : list LpVariable :=
  merge_sort (λ v w, String.leb (name v) (name w))
    (remove_dups (vars_of (objective p)
                    ++ mjoin ((vars_of ∘ lhs) <$> constraints p))).

(** [value(e)] once the variables carry the values [varValue]. *)
Definition value (varValue : string → Z) (e : LpAffineExpression) : Z :=
  Py.sum ((λ t, t.2 * varValue (name t.1)) <$> e).

Definition in_bounds (varValue : string → Z) (v : LpVariable) : Prop :=
  from_option (λ lo, lo ≤ varValue (name v)) True (lowBound v)
  ∧ from_option (λ up, varValue (name v) ≤ up) True (upBound v).

(** What [prob.solve()] promises when it reports [Optimal]: the values
    respect the bounds and every constraint, and no assignment that does
    so has a smaller objective. *)
Definition feasible (p : LpProblem) (varValue : string → Z) : Prop :=
  Forall (in_bounds varValue) (variables p)
  ∧ Forall (λ c, rhs c ≤ value varValue (lhs c)) (constraints p).

Definition optimal (p : LpProblem) (varValue : string → Z) : Prop :=
  feasible p varValue
  ∧ ∀ other, feasible p other →
      value varValue (objective p) ≤ value other (objective p).

End Pulp.

Import Pulp.

(** ** The model *)

(** [start_jours = ['Shift: ' + i for i in jours]] *)
Definition start_jours : list string := (λ i, "Shift: " +:+ i) <$> jours.

(** [x = LpVariable.dicts('shift_', n_days, lowBound=0, cat='Integer')] *)
Definition x : gmap nat LpVariable :=
  Pulp.dicts "shift_" n_days (Some 0) Integer.

(** The variable that [LpVariable.dicts] makes for the index [i]. *)
Definition shift (i : nat) : LpVariable :=
  Pulp.dicts_entry "shift_" (Some 0) Integer i.

(** [[x[i] for i in l]]: [None] stands for [KeyError]. *)
Definition x_at (l : list nat) : option (list LpVariable) :=
  mapM (λ i, x !! i) l.

(** The constraint added for one element of
    [zip(n_days, list_excl, n_staff)]:
    [lpSum([x[i] for i in n_days if i not in l_excl]) >= staff] *)
Definition day_constraint (l_excl : list nat) (staff : Z) : option LpConstraint :=
  vars ← x_at (filter (λ i, i ∉ l_excl) n_days);
  Some {| lhs := lpSum vars; rhs := staff |}.

(** The problem as it stands after the model cell has run, for the staffing
    levels [staff] (the notebook's [n_staff]). *)
Definition prob (staff : list Z) : option LpProblem :=
  excl ← list_excl;
  obj ← x_at n_days;
  cs ← mapM (λ t, day_constraint t.1.2 t.2) (zip (zip n_days excl) staff);
  Some {| problem_name := no_spaces "Workforce scheduling";
          problem_sense := LpMinimize;
          objective := lpSum obj;
          constraints := cs |}.

(** ** The schedule derived from a solved model *)

(** how many workers are needed per day:
    [for v in prob.variables(): dct_work[int(v.name[-1])] = int(v.varValue)] *)
Definition dct_work (p : LpProblem) (varValue : string → Z) : option (gmap nat Z) :=
  foldl (λ acc v,
           dct ← acc;
           c ← Py.last_char (name v);
           k ← Py.int_of_char c;
           Some (<[k := varValue (name v)]> dct))
        (Some ∅) (variables p).

(** Detailed sizing per day:
    [for day in dct_work.keys():
       dict_sch[day] = [dct_work[day] if i in list_in[day] else 0 for i in n_days]] *)
Definition dict_sch (work : gmap nat Z) : option (gmap nat (list Z)) :=
  l_in ← list_in;
  rows ← mapM (λ kv, days ← Py.index l_in kv.1;
                     Some (kv.1, (λ i, if decide (i ∈ days) then kv.2 else 0)
                                   <$> n_days))
              (map_to_list work);
  Some (list_to_map rows).

(** [pulp.value(prob.objective)] *)
Definition total_staff (p : LpProblem) (varValue : string → Z) : Z :=
  value varValue (objective p).


(** The value the solver gave to the variable of the shift starting on day [s]. *)
Definition headcount (varValue : string → Z) (s : nat) : Z :=
  varValue (name (shift s)).

(** The days on which the workers of shift [s] are off, as the constraint
    loop uses [list_excl]: the days [d] whose list [list_excl[d]] holds [s],
    so that [x[s]] is left out of the sum of day [d]. *)
Definition days_off (excl : list (list nat)) (s : nat) : list nat :=
  filter (λ d, s ∈ default [] (excl !! d)) n_days.

(** The values of the recorded run (the rows of the table [df_sch]). *)
Definition recorded_values : gmap string Z :=
  list_to_map [("shift__0", 17); ("shift__1", 14); ("shift__2", 6);
               ("shift__3", 0); ("shift__4", 11); ("shift__5", 0);
               ("shift__6", 3)].

Definition recorded_varValue (nm : string) : Z :=
  default 0 (recorded_values !! nm).

(** ** The specification's calendar pattern and constraint system
    (sections 4.1 to 4.3 and 7), canonical configuration C = 7, W = 5, R = 2 *)
Module Spec.

Definition C : nat := 7.
Definition W : nat := 5.
Definition R : nat := 2.

(** on_duty_days = { (start + k) mod C : k in [0, W) } *)
Definition on_duty_days (start : nat) : list nat :=
  (λ k, (start + k) mod C)%nat <$> seq 0 W.

(** off_duty_days = { (start + k) mod C : k in [W, W+R) } *)
Definition off_duty_days (start : nat) : list nat :=
  (λ k, (start + k) mod C)%nat <$> seq W R.

(** The start days [s] with [d ∈ on_duty_days(s)]. *)
Definition cohorts_on (d : nat) : list nat :=
  filter (λ s, d ∈ on_duty_days s) (seq 0 C).

(** sum over s where d ∈ on_duty_days(s) of x_s ≥ demand[d] *)
Definition coverage_constraint (demand : list Z) (d : nat) : LpConstraint :=
  {| lhs := lpSum (shift <$> cohorts_on d); rhs := demand !!! d |}.

(** One coverage constraint for each calendar day d in [0, C). *)
Definition coverage_constraints (demand : list Z) : list LpConstraint :=
  coverage_constraint demand <$> seq 0 C.

(** sum over s with d in on_duty_days(s) of solution[s] *)
Definition coverage (solution : nat → Z) (d : nat) : Z :=
  Py.sum (solution <$> cohorts_on d).

(** A valid demand vector: length exactly C, all entries ≥ 0. *)
Definition valid_demand (demand : list Z) : Prop :=
  length demand = C ∧ Forall (λ n, 0 ≤ n) demand.

(** ceil(a / b) for a positive b *)
Definition ceil_div (a b : Z) : Z := - ((- a) `div` b).

End Spec.

(** ** The synthetic shipments of the classification notebook

    The arrays drawn from [np.random] before the labelling loop are inputs.
    The draws [np.random.choice([0, 1], p=[0.8, 0.2])] made inside the loop
    are given by [draw]: the call number [k] (from 0) returns [draw k]. *)
Module Shipments.

(** The loop's state: the list [is_delayed] so far and the number of draws
    made so far. *)
Definition loop_state : Type := list Z * nat.

(** One round of [for i in range(num_samples)]:
    [if distances[i] > 2000 and weather[i] == 'Storm': append 1
     elif shipping_modes[i] == 'Ship' and weather[i] != 'Clear': append 1
     else: append a draw]; [and] evaluates its right operand only when the
    left one holds. *)
Definition step (distances : list Z) (shipping_modes weather : list string)
    (draw : nat → Z) (st : loop_state) (i : nat) : option loop_state :=
  d ← Py.index distances i;
  storm ← (if bool_decide (2000 < d)
           then w ← Py.index weather i; Some (bool_decide (w = "Storm"))
           else Some false);
  if storm : bool then Some (st.1 ++ [1], st.2)
  else
    m ← Py.index shipping_modes i;
    wet ← (if bool_decide (m = "Ship")
           then w ← Py.index weather i; Some (bool_decide (w ≠ "Clear"))
           else Some false);
    if wet : bool then Some (st.1 ++ [1], st.2)
    else Some (st.1 ++ [draw st.2], S st.2).

(** The labelling loop, from [is_delayed = []]. *)
Definition is_delayed (num_samples : nat) (distances : list Z)
    (shipping_modes weather : list string) (draw : nat → Z)
    : option loop_state :=
  foldl (λ acc i, st ← acc; step distances shipping_modes weather draw st i)
        (Some ([], 0%nat)) (Py.range 0 num_samples).

(** The two conditions under which the loop appends 1 without a draw. *)
Definition forced (d : Z) (m w : string) : Prop :=
  (2000 < d ∧ w = "Storm") ∨ (m = "Ship" ∧ w ≠ "Clear").

#[global] Instance forced_dec d m w : Decision (forced d m w).
Proof. unfold forced. apply _. Defined.

(** The shipment of index [i] meets one of the two conditions. *)
Definition forced_at (distances : list Z) (shipping_modes weather : list string)
    (i : nat) : Prop :=
  match distances !! i, shipping_modes !! i, weather !! i with
  | Some d, Some m, Some w => forced d m w
  | _, _, _ => False
  end.

#[global] Instance forced_at_dec distances shipping_modes weather i :
  Decision (forced_at distances shipping_modes weather i).
Proof. unfold forced_at. repeat case_match; apply _. Defined.

(** The number of shipments before the index [i] that meet neither
    condition: the number of draws made before the round [i]. *)
Definition draws_before (distances : list Z) (shipping_modes weather : list string)
    (i : nat) : nat :=
  length (filter (λ j, ¬ forced_at distances shipping_modes weather j) (seq 0 i)).

End Shipments.

(** ** Lookups in the circular list *)
Section Circular.

Context {A : Type}.
Implicit Types (l : list A) (n j : nat).

Lemma ncycles_length l n :
  length (Py.ncycles l n) = (n * length l)%nat.
Proof.
  unfold Py.ncycles. induction n as [|n IH]; simpl; [done|].
  by rewrite length_app, IH.
Qed.

Lemma ncycles_lookup l n j :
  (j < n * length l)%nat →
  Py.ncycles l n !! j = l !! (j mod length l)%nat.
Proof.
  unfold Py.ncycles. revert j.
  induction n as [|n IH]; intros j Hj; simpl in *; [lia|].
  destruct (decide (j < length l)%nat) as [Hlt|Hge].
  - rewrite lookup_app_l by done. by rewrite Nat.mod_small.
  - rewrite lookup_app_r by lia. rewrite IH by lia.
    f_equal.
    replace j with ((j - length l) + 1 * length l)%nat at 2 by lia.
    rewrite Nat.Div0.mod_add. done.
Qed.

End Circular.

Lemma n_days_lookup (k : nat) : (k < 7)%nat → n_days !! k = Some k.
Proof. intros Hk. unfold n_days, Py.range. by rewrite lookup_seq_lt by lia. Qed.

Lemma n_days_c_length : length n_days_c = 21%nat.
Proof. unfold n_days_c. rewrite ncycles_length. reflexivity. Qed.

Lemma n_days_c_lookup (j : nat) :
  (j < 21)%nat → Py.index n_days_c j = Some (j mod 7)%nat.
Proof.
  intros Hj. unfold Py.index, n_days_c.
  rewrite ncycles_lookup by (simpl; lia).
  change (length n_days) with 7%nat.
  apply n_days_lookup, Nat.mod_upper_bound. lia.
Qed.

Lemma n_days_c_lookup_ge (j : nat) :
  (21 ≤ j)%nat → Py.index n_days_c j = None.
Proof.
  intros Hj. apply lookup_ge_None_2. by rewrite n_days_c_length.
Qed.

Lemma n_days_c_bounded (i : nat) : i ∈ n_days_c → (i < 7)%nat.
Proof.
  intros [j Hj]%list_elem_of_lookup.
  assert (j < 21)%nat as Hlt.
  { rewrite <- n_days_c_length. by eapply lookup_lt_Some. }
  pose proof (n_days_c_lookup j Hlt) as E. unfold Py.index in E.
  rewrite E in Hj. assert (i = j mod 7)%nat as -> by congruence.
  apply Nat.mod_upper_bound. lia.
Qed.

(** A window of the circular list that stays within its 21 entries reads
    the days [a mod 7, (a+1) mod 7, ...]. *)
Lemma window_in_bounds (a b : nat) :
  (b ≤ 21)%nat →
  window a b = Some ((λ k, (a + k) mod 7)%nat <$> seq 0 (b - a)).
Proof.
  intros Hb. unfold window, Py.range.
  rewrite <- (Nat.add_0_r a) at 1. rewrite <- fmap_add_seq.
  apply mapM_Some_2, Forall2_fmap, Forall_Forall2_diag, Forall_forall.
  intros k [_ Hk]%elem_of_seq. simpl in Hk.
  apply n_days_c_lookup. lia.
Qed.

(** ** The windows of the notebook *)

Lemma list_in_eq : list_in = Some (Spec.on_duty_days <$> n_days_c).
Proof.
  unfold list_in.
  apply mapM_Some_2, Forall2_fmap_r, Forall_Forall2_diag, Forall_forall.
  intros i Hi%n_days_c_bounded.
  rewrite window_in_bounds by lia.
  by replace (i + 5 - i)%nat with 5%nat by lia.
Qed.

Lemma list_excl_eq :
  list_excl = Some ((λ d, [(d + 1) mod 7; (d + 2) mod 7]%nat) <$> n_days_c).
Proof.
  unfold list_excl.
  apply mapM_Some_2, Forall2_fmap_r, Forall_Forall2_diag, Forall_forall.
  intros i Hi%n_days_c_bounded.
  rewrite window_in_bounds by lia.
  replace (i + 3 - (i + 1))%nat with 2%nat by lia. simpl.
  by rewrite Nat.add_0_r, <- Nat.add_assoc.
Qed.

(** The first seven entries of a list built over [n_days_c] are those of
    the days 0..6 themselves. *)
Lemma fmap_n_days_c_lookup {B} (f : nat → B) (d : nat) :
  (d < 7)%nat → (f <$> n_days_c) !! d = Some (f d).
Proof.
  intros Hd. rewrite list_lookup_fmap.
  pose proof (n_days_c_lookup d ltac:(lia)) as E. unfold Py.index in E.
  rewrite Nat.mod_small in E by lia. by rewrite E.
Qed.

(** A property of all days below 7 is settled on the list of those days. *)
Lemma below_seven (P : nat → Prop) :
  Forall P (seq 0 7) → ∀ d, (d < 7)%nat → P d.
Proof.
  intros H d Hd. rewrite Forall_forall in H. apply H, elem_of_seq. lia.
Qed.

Lemma excluded_iff_not_on_duty (d s : nat) :
  (d < 7)%nat → (s < 7)%nat →
  s ∈ [(d + 1) mod 7; (d + 2) mod 7]%nat ↔ d ∉ Spec.on_duty_days s.
Proof.
  intros Hd Hs.
  assert (Forall (λ d, Forall (λ s,
            s ∈ [(d + 1) mod 7; (d + 2) mod 7]%nat ↔ d ∉ Spec.on_duty_days s)
            (seq 0 7)) (seq 0 7)) as H by compute_done.
  exact (below_seven _ (below_seven _ H d Hd) s Hs).
Qed.

(** ** The variables and the model *)

Lemma x_lookup (s : nat) : (s < 7)%nat → x !! s = Some (shift s).
Proof.
  revert s. apply below_seven. compute_done.
Qed.

Lemma x_at_shifts (l : list nat) :
  Forall (λ i, i < 7)%nat l → x_at l = Some (shift <$> l).
Proof.
  intros Hl. unfold x_at.
  apply mapM_Some_2, Forall2_fmap_r, Forall_Forall2_diag.
  eapply Forall_impl; [exact Hl|]. intros i Hi. by apply x_lookup.
Qed.

Lemma value_lpSum (varValue : string → Z) (vars : list LpVariable) :
  value varValue (lpSum vars) = Py.sum ((λ v, varValue (name v)) <$> vars).
Proof.
  unfold value, lpSum. induction vars as [|v vars IH]; [done|].
  rewrite !fmap_cons. unfold Py.sum in *. cbn [foldr fst snd].
  rewrite IH. lia.
Qed.

Lemma value_lpSum_shifts (varValue : string → Z) (l : list nat) :
  value varValue (lpSum (shift <$> l)) = Py.sum (headcount varValue <$> l).
Proof. rewrite value_lpSum, <- list_fmap_compose. done. Qed.

(** Case analysis on the first [n] entries of a list. *)
Ltac split_list l n :=
  lazymatch n with
  | O => idtac
  | S ?m => let z := fresh "z" in destruct l as [|z l]; [|split_list l m]
  end.

(** The model cell builds, whatever the staffing list, the objective over
    the seven shift variables and one coverage constraint for each of the
    first (at most seven) staffing levels. *)
Lemma prob_eq (staff : list Z) :
  prob staff =
    Some {| problem_name := "Workforce_scheduling";
            problem_sense := LpMinimize;
            objective := lpSum (shift <$> seq 0 7);
            constraints :=
              Spec.coverage_constraint staff <$> seq 0 (7 `min` length staff) |}.
Proof.
  split_list staff 7%nat; vm_compute; reflexivity.
Qed.

Lemma variables_prob (staff : list Z) (p : LpProblem) :
  prob staff = Some p → variables p = shift <$> seq 0 7.
Proof.
  rewrite prob_eq. intros [= <-].
  split_list staff 7%nat; vm_compute; reflexivity.
Qed.

Lemma in_bounds_shift (varValue : string → Z) (s : nat) :
  in_bounds varValue (shift s) ↔ 0 ≤ headcount varValue s.
Proof. unfold in_bounds, headcount. simpl. tauto. Qed.

Lemma coverage_constraint_holds (varValue : string → Z) (staff : list Z) (d : nat) :
  rhs (Spec.coverage_constraint staff d)
    ≤ value varValue (lhs (Spec.coverage_constraint staff d))
  ↔ staff !!! d ≤ Spec.coverage (headcount varValue) d.
Proof.
  unfold Spec.coverage_constraint, Spec.coverage. cbn [lhs rhs].
  by rewrite value_lpSum_shifts.
Qed.

(** Feasibility of the built model, read on the shift headcounts. *)
Lemma feasible_iff (staff : list Z) (varValue : string → Z) (p : LpProblem) :
  prob staff = Some p →
  feasible p varValue ↔
    Forall (λ s, 0 ≤ headcount varValue s) (seq 0 7)
    ∧ Forall (λ d, staff !!! d ≤ Spec.coverage (headcount varValue) d)
        (seq 0 (7 `min` length staff)).
Proof.
  intros Hp. unfold feasible. rewrite (variables_prob _ _ Hp).
  rewrite prob_eq in Hp. injection Hp as <-. cbn [constraints].
  rewrite !Forall_fmap.
  match goal with
  | |- ?B ∧ ?K ↔ ?B' ∧ ?K' =>
      assert (B ↔ B') as -> by (apply Forall_iff; intros s; apply in_bounds_shift);
      assert (K ↔ K') as ->
        by (apply Forall_iff; intros d; apply coverage_constraint_holds)
  end.
  done.
Qed.

Lemma total_staff_eq (staff : list Z) (varValue : string → Z) (p : LpProblem) :
  prob staff = Some p →
  total_staff p varValue = Py.sum (headcount varValue <$> seq 0 7).
Proof.
  rewrite prob_eq. intros [= <-]. unfold total_staff. cbn [objective].
  exact (value_lpSum_shifts varValue (seq 0 7)).
Qed.

(** Each shift works five of the seven days: summing the seven coverage
    sums counts every headcount five times. *)
Lemma coverage_sums (sol : nat → Z) :
  Py.sum (Spec.coverage sol <$> seq 0 7) = 5 * Py.sum (sol <$> seq 0 7).
Proof.
  cbn [fmap list_fmap seq Py.sum foldr]. unfold Spec.coverage.
  repeat match goal with
         | |- context [Spec.cohorts_on ?d] =>
             let l := eval vm_compute in (Spec.cohorts_on d) in
             change (Spec.cohorts_on d) with l
         end.
  cbn [fmap list_fmap Py.sum foldr].
  lia.
Qed.

Lemma sum_le_pointwise {A} (f g : A → Z) (l : list A) :
  Forall (λ a, f a ≤ g a) l → Py.sum (f <$> l) ≤ Py.sum (g <$> l).
Proof.
  induction 1 as [|a l Ha _ IH]; [done|].
  rewrite !fmap_cons. unfold Py.sum in *. cbn [foldr]. lia.
Qed.

Lemma sum_by_day (staff : list Z) :
  length staff = 7%nat →
  Py.sum staff = Py.sum ((λ d, staff !!! d) <$> seq 0 7).
Proof.
  intros Hlen. split_list staff 7%nat; try discriminate Hlen.
  destruct staff; [reflexivity|discriminate Hlen].
Qed.

(** Five times the total headcount pays for the whole week's demand. *)
Lemma week_demand_le_five_totals
    (staff : list Z) (varValue : string → Z) (p : LpProblem) :
  length staff = 7%nat → prob staff = Some p → feasible p varValue →
  Py.sum staff ≤ 5 * total_staff p varValue.
Proof.
  intros Hlen Hp [_ Hcov]%(feasible_iff staff varValue p Hp).
  rewrite Hlen in Hcov. change (7 `min` 7)%nat with 7%nat in Hcov.
  rewrite (total_staff_eq staff varValue p Hp), <- coverage_sums.
  rewrite (sum_by_day staff Hlen).
  by apply sum_le_pointwise.
Qed.

Lemma ceil_div_le_iff (a b t : Z) :
  0 < b → Spec.ceil_div a b ≤ t ↔ a ≤ b * t.
Proof.
  intros Hb. unfold Spec.ceil_div.
  pose proof (Z.mul_div_le (- a) b Hb).
  pose proof (Z.mul_succ_div_gt (- a) b Hb).
  split; intros; nia.
Qed.

(** ** The recorded run *)

Lemma recorded_feasible (p : LpProblem) :
  prob n_staff = Some p → feasible p recorded_varValue.
Proof.
  intros Hp. apply (feasible_iff n_staff recorded_varValue p Hp).
  split; compute_done.
Qed.

Lemma recorded_total (p : LpProblem) :
  prob n_staff = Some p → total_staff p recorded_varValue = 51.
Proof.
  intros Hp. rewrite (total_staff_eq n_staff recorded_varValue p Hp).
  reflexivity.
Qed.

Lemma recorded_optimal (p : LpProblem) :
  prob n_staff = Some p → optimal p recorded_varValue.
Proof.
  intros Hp. split; [by apply recorded_feasible|].
  intros other Hother.
  change (total_staff p recorded_varValue ≤ total_staff p other).
  rewrite (recorded_total p Hp).
  pose proof (week_demand_le_five_totals n_staff other p eq_refl Hp Hother) as H.
  change (Py.sum n_staff) with 254 in H. lia.
Qed.

(** ** The schedule table *)

Lemma dct_work_eq (staff : list Z) (varValue : string → Z) (p : LpProblem) :
  prob staff = Some p →
  dct_work p varValue
    = Some (list_to_map ((λ s, (s, headcount varValue s)) <$> seq 0 7)).
Proof.
  intros Hp. unfold dct_work. rewrite (variables_prob staff p Hp).
  vm_compute. reflexivity.
Qed.

Lemma work_lookup (varValue : string → Z) (s : nat) :
  (s < 7)%nat →
  (list_to_map ((λ s, (s, headcount varValue s)) <$> seq 0 7) : gmap nat Z) !! s
    = Some (headcount varValue s).
Proof.
  revert s. apply below_seven.
  repeat (apply Forall_cons; split; [vm_compute; reflexivity|]).
  apply Forall_nil_2.
Qed.

Lemma dict_sch_eq (varValue : string → Z) :
  dict_sch (list_to_map ((λ s, (s, headcount varValue s)) <$> seq 0 7))
    = Some (list_to_map
              ((λ s, (s, (λ d, if decide (d ∈ Spec.on_duty_days s)
                               then headcount varValue s else 0) <$> seq 0 7))
                 <$> seq 0 7)).
Proof. vm_compute. reflexivity. Qed.

Lemma sch_lookup (varValue : string → Z) (s d : nat) :
  (s < 7)%nat → (d < 7)%nat →
  (list_to_map
     ((λ s, (s, (λ d, if decide (d ∈ Spec.on_duty_days s)
                      then headcount varValue s else 0) <$> seq 0 7))
        <$> seq 0 7) : gmap nat (list Z)) !! s ≫= (λ row, row !! d)
    = Some (if decide (d ∈ Spec.on_duty_days s)
            then headcount varValue s else 0).
Proof.
  intros Hs Hd. revert d Hd. revert s Hs.
  refine (below_seven _ _).
  repeat (apply Forall_cons; split;
          [refine (below_seven _ _);
           repeat (apply Forall_cons; split; [vm_compute; reflexivity|]);
           apply Forall_nil_2|]).
  apply Forall_nil_2.
Qed.

(** ** The notebook's recorded outputs *)

(** The cell that displays [n_days_c]. *)
Example n_days_c_recorded :
  n_days_c = [0; 1; 2; 3; 4; 5; 6; 0; 1; 2; 3; 4; 5; 6; 0; 1; 2; 3; 4; 5; 6]%nat.
Proof. reflexivity. Qed.

(** The table [df_sch], row by row from "Shift: Monday" to "Shift: Sunday". *)
Example df_sch_recorded :
  (p ← prob n_staff;
   work ← dct_work p recorded_varValue;
   sch ← dict_sch work;
   mapM (λ s, sch !! s) n_days)
  = Some [[17; 17; 17; 17; 17; 0; 0];
          [0; 14; 14; 14; 14; 14; 0];
          [0; 0; 6; 6; 6; 6; 6];
          [0; 0; 0; 0; 0; 0; 0];
          [11; 11; 0; 0; 11; 11; 11];
          [0; 0; 0; 0; 0; 0; 0];
          [3; 3; 3; 3; 0; 0; 3]].
Proof. vm_compute. reflexivity. Qed.

(** "Total number of Staff = 51.0" *)
Example total_staff_recorded :
  (λ p, total_staff p recorded_varValue) <$> prob n_staff = Some 51.
Proof. vm_compute. reflexivity. Qed.

(** * The claims *)

(** C5: for every start day [s] in [0,7), the working-day list sliced from
    the tripled circular day list over [range(s, s+5)], that is
    [list_in[s]], is the list [(s+k) mod 7] for [k = 0..4]; as a set of
    days it is [{ (s + k) mod 7 : k in [0, 5) }]. *)
Theorem list_in_is_on_duty_days (s : nat) :
  (s < 7)%nat →
  ∃ l_in days,
    list_in = Some l_in ∧ Py.index l_in s = Some days
    ∧ days = Spec.on_duty_days s
    ∧ ∀ d, d ∈ days ↔ ∃ k, (k < 5)%nat ∧ d = ((s + k) mod 7)%nat.
Proof.
  intros Hs. exists (Spec.on_duty_days <$> n_days_c), (Spec.on_duty_days s).
  split; [apply list_in_eq|].
  split; [by apply fmap_n_days_c_lookup|].
  split; [done|].
  intros d. unfold Spec.on_duty_days. rewrite list_elem_of_fmap.
  split.
  - intros (k & -> & Hk%elem_of_seq). exists k.
    split; [unfold Spec.W in Hk; lia|done].
  - intros (k & Hk & ->). exists k. split; [done|].
    apply elem_of_seq. unfold Spec.W. lia.
Qed.

Lemma list_in_is_on_duty_days_witness :
  ∃ l_in days,
    list_in = Some l_in ∧ Py.index l_in 4 = Some days
    ∧ days = Spec.on_duty_days 4
    ∧ ∀ d, d ∈ days ↔ ∃ k, (k < 5)%nat ∧ d = ((4 + k) mod 7)%nat.
Proof. apply (list_in_is_on_duty_days 4). lia. Defined.

(** C10: the tripled list [n_days_c] has 21 entries, each of them a day
    [i] in [0,7), and every index [j] that [range(i, i+5)] and
    [range(i+1, i+3)] produce satisfies [0 ≤ j < 21] and reads an entry
    of the list; so both comprehensions finish without an [IndexError]. *)
Theorem circular_slicing_in_bounds :
  length n_days_c = 21%nat
  ∧ Forall (λ i,
      (i < 7)%nat
      ∧ Forall (λ j, (0 ≤ j < 21)%nat ∧ is_Some (Py.index n_days_c j))
          (Py.range i (i + 5))
      ∧ Forall (λ j, (0 ≤ j < 21)%nat ∧ is_Some (Py.index n_days_c j))
          (Py.range (i + 1) (i + 3)))
      n_days_c
  ∧ is_Some list_in ∧ is_Some list_excl.
Proof.
  split; [apply n_days_c_length|].
  split.
  - apply Forall_forall. intros i Hi%n_days_c_bounded.
    split; [done|].
    split; apply Forall_forall; intros j [Hlo Hhi]%elem_of_seq;
      (assert (j < 21)%nat as Hj by lia);
      (split; [lia|]); rewrite (n_days_c_lookup j Hj); eauto.
  - rewrite list_in_eq, list_excl_eq. eauto.
Qed.

(** C6: for every start day [s] in [0,7), the days the shift works
    ([list_in[s]]) and the days it is off (the days [d] whose exclusion
    list [list_excl[d]] holds [s]) are disjoint; the days off are exactly
    [{ (s + k) mod 7 : k in [5, 7) }], the specification's
    [off_duty_days(s)]; and together the two sets are the whole cycle
    [{0,...,6}]. *)
Theorem on_and_off_duty_partition (s : nat) :
  (s < 7)%nat →
  ∃ l_in excl on,
    list_in = Some l_in ∧ list_excl = Some excl
    ∧ Py.index l_in s = Some on
    ∧ (∀ d, d ∈ on → d ∉ days_off excl s)
    ∧ (∀ d, d ∈ days_off excl s
            ↔ ∃ k, (5 ≤ k < 7)%nat ∧ d = ((s + k) mod 7)%nat)
    ∧ (∀ d, d ∈ days_off excl s ↔ d ∈ Spec.off_duty_days s)
    ∧ (∀ d, d ∈ on ∨ d ∈ days_off excl s ↔ (d < 7)%nat).
Proof.
  intros Hs.
  exists (Spec.on_duty_days <$> n_days_c),
         ((λ d, [(d + 1) mod 7; (d + 2) mod 7]%nat) <$> n_days_c),
         (Spec.on_duty_days s).
  split; [apply list_in_eq|].
  split; [apply list_excl_eq|].
  split; [by apply fmap_n_days_c_lookup|].
  assert (∀ d, (d < 7)%nat ∧ d ∉ Spec.on_duty_days s
               ↔ d ∈ Spec.off_duty_days s) as Hspec.
  { revert s Hs. refine (below_seven _ _).
    repeat (apply Forall_cons; split;
            [intros d; vm_compute (Spec.on_duty_days _);
             vm_compute (Spec.off_duty_days _);
             rewrite !elem_of_cons, !elem_of_nil; lia|]).
    apply Forall_nil_2. }
  assert (∀ d, d ∈ days_off
                 ((λ d, [(d + 1) mod 7; (d + 2) mod 7]%nat) <$> n_days_c) s
               ↔ (d < 7)%nat ∧ d ∉ Spec.on_duty_days s) as Hoff.
  { intros d. unfold days_off. rewrite list_elem_of_filter.
    unfold n_days, Py.range. rewrite elem_of_seq.
    split.
    - intros [Hin Hd]. assert (d < 7)%nat as Hd' by lia.
      rewrite (fmap_n_days_c_lookup _ d Hd') in Hin. simpl in Hin.
      split; [done|]. by apply excluded_iff_not_on_duty.
    - intros [Hd Hnot]. split; [|lia].
      rewrite (fmap_n_days_c_lookup _ d Hd). simpl.
      by apply excluded_iff_not_on_duty. }
  split; [intros d Hon [_ Hnot]%Hoff; done|].
  split.
  { intros d. rewrite Hoff, Hspec. unfold Spec.off_duty_days.
    rewrite list_elem_of_fmap. split.
    - intros (k & -> & Hk%elem_of_seq). exists k.
      split; [unfold Spec.W, Spec.R in Hk; lia|done].
    - intros (k & Hk & ->). exists k. split; [done|].
      apply elem_of_seq. unfold Spec.W, Spec.R. lia. }
  split; [intros d; by rewrite Hoff, Hspec|].
  intros d. rewrite Hoff. split.
  - intros [Hon|[Hd _]]; [|done].
    unfold Spec.on_duty_days in Hon.
    apply list_elem_of_fmap in Hon as (k & -> & _).
    apply Nat.mod_upper_bound. done.
  - intros Hd. destruct (decide (d ∈ Spec.on_duty_days s)); eauto.
Qed.

Lemma on_and_off_duty_partition_witness :
  ∃ l_in excl on,
    list_in = Some l_in ∧ list_excl = Some excl
    ∧ Py.index l_in 1 = Some on
    ∧ (∀ d, d ∈ on → d ∉ days_off excl 1)
    ∧ (∀ d, d ∈ days_off excl 1
            ↔ ∃ k, (5 ≤ k < 7)%nat ∧ d = ((1 + k) mod 7)%nat)
    ∧ (∀ d, d ∈ days_off excl 1 ↔ d ∈ Spec.off_duty_days 1)
    ∧ (∀ d, d ∈ on ∨ d ∈ days_off excl 1 ↔ (d < 7)%nat).
Proof. apply (on_and_off_duty_partition 1). lia. Defined.

(** Read by shift instead of by day, the exclusion list of index [s] is not
    the rest of shift [s]: [list_excl[0]] is [[1; 2]], two days on which the
    shift that starts on day 0 works. *)
Remark list_excl_is_indexed_by_day :
  ∃ excl, list_excl = Some excl ∧ Py.index excl 0 = Some [1; 2]%nat
          ∧ Spec.on_duty_days 0 = [0; 1; 2; 3; 4]%nat
          ∧ days_off excl 0 = [5; 6]%nat.
Proof. eexists. split; [vm_compute; reflexivity|]. by vm_compute. Qed.

(** ** Claims on the model *)

Lemma constraints_lookup (staff : list Z) (p : LpProblem) (d : nat) :
  length staff = 7%nat → (d < 7)%nat → prob staff = Some p →
  constraints p = Spec.coverage_constraints staff
  ∧ constraints p !! d = Some (Spec.coverage_constraint staff d).
Proof.
  intros Hlen Hd. rewrite prob_eq, Hlen. intros Hp.
  apply (inj Some) in Hp. subst p. cbn [constraints].
  change (7 `min` 7)%nat with Spec.C. split; [done|].
  rewrite list_lookup_fmap, lookup_seq_lt by (unfold Spec.C; lia). done.
Qed.

Lemma filter_iff_on {A} (P Q : A → Prop)
    `{!∀ a, Decision (P a), !∀ a, Decision (Q a)} (l : list A) :
  (∀ a, a ∈ l → P a ↔ Q a) → filter P l = filter Q l.
Proof.
  induction l as [|a l IH]; intros Hiff; [done|].
  rewrite !filter_cons.
  rewrite IH by (intros b Hb; apply Hiff; by right).
  pose proof (Hiff a ltac:(by left)) as Ha.
  destruct (decide (P a)), (decide (Q a)); tauto.
Qed.

Lemma cohorts_on_below (d s : nat) : s ∈ Spec.cohorts_on d → (s < 7)%nat.
Proof.
  unfold Spec.cohorts_on. intros [_ Hs%elem_of_seq]%list_elem_of_filter.
  unfold Spec.C in Hs. lia.
Qed.

Lemma coverage_ext (sol sol' : nat → Z) (d : nat) :
  (∀ s, (s < 7)%nat → sol s = sol' s) →
  Spec.coverage sol d = Spec.coverage sol' d.
Proof.
  intros Hext. unfold Spec.coverage. f_equal.
  apply Forall_fmap_ext, Forall_forall.
  intros s Hs%cohorts_on_below. by apply Hext.
Qed.

(** C1: for every demand vector of length 7 the built model holds, for
    each calendar day [d] in [0,7), as its [d]-th constraint, that the sum
    of [x_s] over the start days [s] with [d ∈ on_duty_days(s)] is at least
    [demand[d]] (seven constraints in all); and the solution read from any
    valuation the solver returns as optimal satisfies each of these
    inequalities. *)
Theorem coverage_constraints_built_and_met (staff : list Z) (d : nat) :
  length staff = 7%nat → (d < 7)%nat →
  ∃ p,
    prob staff = Some p
    ∧ length (constraints p) = 7%nat
    ∧ constraints p !! d
        = Some {| lhs := lpSum (shift <$> Spec.cohorts_on d);
                  rhs := staff !!! d |}
    ∧ ∀ varValue, optimal p varValue →
        ∃ work : gmap nat Z,
          dct_work p varValue = Some work
          ∧ staff !!! d ≤ Spec.coverage (λ s, work !!! s) d.
Proof.
  intros Hlen Hd.
  destruct (prob staff) as [p|] eqn:Hp; [|by rewrite prob_eq in Hp].
  exists p. split; [done|].
  destruct (constraints_lookup staff p d Hlen Hd Hp) as [Hcs Hlk].
  split; [by rewrite Hcs|].
  split; [exact Hlk|].
  intros varValue [Hfeas _].
  eexists. split; [by apply (dct_work_eq staff)|].
  apply (feasible_iff staff varValue p Hp) in Hfeas as [_ Hcov].
  rewrite Hlen in Hcov.
  rewrite (coverage_ext _ (headcount varValue)).
  - exact (below_seven _ Hcov d Hd).
  - intros s Hs. by apply lookup_total_correct, work_lookup.
Qed.

Lemma coverage_constraints_built_and_met_witness :
  ∃ p,
    prob n_staff = Some p
    ∧ optimal p recorded_varValue
    ∧ ∃ work : gmap nat Z,
        dct_work p recorded_varValue = Some work
        ∧ n_staff !!! 4%nat ≤ Spec.coverage (λ s, work !!! s) 4.
Proof.
  destruct (coverage_constraints_built_and_met n_staff 4 eq_refl ltac:(lia))
    as (p & Hp & _ & _ & Hmet).
  exists p. split; [exact Hp|].
  split; [exact (recorded_optimal p Hp)|].
  exact (Hmet recorded_varValue (recorded_optimal p Hp)).
Defined.

(** C2: for every day [d] in [0,7) the exclusion list the code slices for
    it is [[(d+1) mod 7; (d+2) mod 7]]; a start day [s] in [0,7) is in it
    exactly when [d] is not in [on_duty_days(s)]; hence the variables the
    code sums for day [d] are those of the start days on duty on [d], and
    the constraints the code builds for a demand vector of length 7 are,
    one for one, the coverage constraints of the specification. *)
Theorem exclusion_window_is_complement_of_on_duty
    (staff : list Z) (d s : nat) :
  length staff = 7%nat → (d < 7)%nat → (s < 7)%nat →
  ∃ excl p,
    list_excl = Some excl
    ∧ Py.index excl d = Some [(d + 1) mod 7; (d + 2) mod 7]%nat
    ∧ (s ∈ [(d + 1) mod 7; (d + 2) mod 7]%nat ↔ d ∉ Spec.on_duty_days s)
    ∧ filter (λ i, i ∉ [(d + 1) mod 7; (d + 2) mod 7]%nat) n_days
        = Spec.cohorts_on d
    ∧ prob staff = Some p
    ∧ constraints p = Spec.coverage_constraints staff.
Proof.
  intros Hlen Hd Hs.
  destruct (prob staff) as [p|] eqn:Hp; [|by rewrite prob_eq in Hp].
  exists ((λ d, [(d + 1) mod 7; (d + 2) mod 7]%nat) <$> n_days_c), p.
  split; [apply list_excl_eq|].
  split.
  { exact (fmap_n_days_c_lookup
             (λ d, [(d + 1) mod 7; (d + 2) mod 7]%nat) d Hd). }
  split; [by apply excluded_iff_not_on_duty|].
  split.
  - unfold Spec.cohorts_on, n_days, Py.range.
    change (seq 0 (7 - 0)) with (seq 0 Spec.C).
    apply filter_iff_on.
    intros i Hi%elem_of_seq. unfold Spec.C in Hi.
    rewrite (excluded_iff_not_on_duty d i) by lia.
    split; [apply dec_stable|tauto].
  - split; [done|]. by apply (constraints_lookup staff p d).
Qed.

Lemma exclusion_window_is_complement_of_on_duty_witness :
  ∃ excl p,
    list_excl = Some excl
    ∧ Py.index excl 5 = Some [(5 + 1) mod 7; (5 + 2) mod 7]%nat
    ∧ (0%nat ∈ [(5 + 1) mod 7; (5 + 2) mod 7]%nat ↔ 5%nat ∉ Spec.on_duty_days 0)
    ∧ filter (λ i, i ∉ [(5 + 1) mod 7; (5 + 2) mod 7]%nat) n_days
        = Spec.cohorts_on 5
    ∧ prob n_staff = Some p
    ∧ constraints p = Spec.coverage_constraints n_staff.
Proof.
  apply (exclusion_window_is_complement_of_on_duty n_staff 5 0);
    [reflexivity|lia|lia].
Defined.

(** C3: for the demand [31, 45, 40, 40, 48, 30, 20] the optimal objective
    value of the built model is exactly 51: an assignment within the bounds
    (integers ≥ 0) that satisfies every constraint has total 51, none has
    a smaller total, and so every optimal assignment has total 51. *)
Theorem canonical_demand_optimum_is_51 :
  ∃ p,
    prob n_staff = Some p
    ∧ (∃ varValue, feasible p varValue ∧ total_staff p varValue = 51)
    ∧ (∀ varValue, feasible p varValue → 51 ≤ total_staff p varValue)
    ∧ (∀ varValue, optimal p varValue → total_staff p varValue = 51).
Proof.
  destruct (prob n_staff) as [p|] eqn:Hp; [|by rewrite prob_eq in Hp].
  exists p. split; [done|].
  assert (∀ varValue, feasible p varValue → 51 ≤ total_staff p varValue) as Hlow.
  { intros varValue Hfeas.
    pose proof (week_demand_le_five_totals n_staff varValue p eq_refl Hp Hfeas) as H.
    change (Py.sum n_staff) with 254 in H. lia. }
  split; [|split; [exact Hlow|]].
  - exists recorded_varValue.
    split; [by apply recorded_feasible|by apply recorded_total].
  - intros varValue [Hfeas Hmin].
    specialize (Hmin recorded_varValue (recorded_feasible p Hp)).
    specialize (Hlow varValue Hfeas).
    fold (total_staff p varValue) in Hmin.
    fold (total_staff p recorded_varValue) in Hmin.
    rewrite (recorded_total p Hp) in Hmin. lia.
Qed.

(** C4: for every valuation the solver leaves in the variables of the
    model built for a demand vector of length 7, the schedule report is
    consistent: the solution [dct_work] holds for each start day [s] the
    value of its variable, the table [dict_sch] has at row [s], column [d]
    the entry [solution[s]] when [d] is in [on_duty_days(s)] and 0
    otherwise, and the reported total, the value of the objective, is the
    sum over the start days of [solution[s]]. *)
Theorem schedule_report_consistent
    (staff : list Z) (varValue : string → Z) (s d : nat) :
  length staff = 7%nat → (s < 7)%nat → (d < 7)%nat →
  ∃ p (work : gmap nat Z) (sch : gmap nat (list Z)) row,
    prob staff = Some p
    ∧ dct_work p varValue = Some work
    ∧ dict_sch work = Some sch
    ∧ work !! s = Some (headcount varValue s)
    ∧ sch !! s = Some row
    ∧ row !! d = Some (if decide (d ∈ Spec.on_duty_days s)
                       then work !!! s else 0)
    ∧ total_staff p varValue = Py.sum ((λ s, work !!! s) <$> seq 0 7).
Proof.
  intros Hlen Hs Hd.
  destruct (prob staff) as [p|] eqn:Hp; [|by rewrite prob_eq in Hp].
  pose proof (sch_lookup varValue s d Hs Hd) as Hrow.
  destruct (_ !! s) as [row|] eqn:Hsch in Hrow; [|discriminate Hrow].
  exists p, (list_to_map ((λ s, (s, headcount varValue s)) <$> seq 0 7)).
  eexists _, row.
  split; [done|].
  split; [exact (dct_work_eq staff varValue p Hp)|].
  split; [apply dict_sch_eq|].
  split; [by apply work_lookup|].
  split; [exact Hsch|].
  rewrite (lookup_total_correct _ _ _ (work_lookup varValue s Hs)).
  split; [exact Hrow|].
  rewrite (total_staff_eq staff varValue p Hp).
  apply (f_equal Py.sum), Forall_fmap_ext, Forall_forall.
  intros k [_ Hk]%elem_of_seq. symmetry.
  apply lookup_total_correct, work_lookup. simpl in Hk; lia.
Qed.

Lemma schedule_report_consistent_witness :
  ∃ p (work : gmap nat Z) (sch : gmap nat (list Z)) row,
    prob n_staff = Some p
    ∧ dct_work p recorded_varValue = Some work
    ∧ dict_sch work = Some sch
    ∧ work !! 4%nat = Some (headcount recorded_varValue 4)
    ∧ sch !! 4%nat = Some row
    ∧ row !! 2%nat = Some (if decide (2%nat ∈ Spec.on_duty_days 4)
                           then work !!! 4%nat else 0)
    ∧ total_staff p recorded_varValue
        = Py.sum ((λ s, work !!! s) <$> seq 0 7).
Proof.
  apply (schedule_report_consistent n_staff recorded_varValue 4 2);
    [reflexivity|lia|lia].
Defined.

Lemma vars_of_lpSum (vars : list LpVariable) : vars_of (lpSum vars) = vars.
Proof.
  unfold vars_of, lpSum. rewrite <- list_fmap_compose.
  apply list_fmap_id.
Qed.

Lemma lpSum_unit_coefficients (vars : list LpVariable) :
  Forall (λ t, t.2 = 1) (lpSum vars).
Proof. unfold lpSum. apply Forall_fmap, Forall_true. done. Qed.

(** C7: every calendar day [d] in [0,7) is a working day of exactly 5 of
    the 7 start days, by [on_duty_days] and by the code's [list_in] alike;
    and the constraint the model builds for [d] sums exactly 5 distinct
    variables, each with coefficient 1, out of the 7 decision variables of
    the objective. *)
Theorem each_day_is_covered_by_five_shifts (staff : list Z) (d : nat) :
  length staff = 7%nat → (d < 7)%nat →
  length (Spec.cohorts_on d) = 5%nat
  ∧ NoDup (Spec.cohorts_on d)
  ∧ (∃ l_in,
       list_in = Some l_in
       ∧ length (filter (λ s, d ∈ default [] (l_in !! s)) n_days) = 5%nat)
  ∧ ∃ p c,
      prob staff = Some p ∧ constraints p !! d = Some c
      ∧ length (lhs c) = 5%nat
      ∧ Forall (λ t, t.2 = 1) (lhs c)
      ∧ NoDup (vars_of (lhs c))
      ∧ vars_of (lhs c) ⊆ vars_of (objective p)
      ∧ NoDup (vars_of (objective p))
      ∧ length (vars_of (objective p)) = 7%nat.
Proof.
  intros Hlen Hd.
  assert (Forall (λ d,
            length (Spec.cohorts_on d) = 5%nat
            ∧ NoDup (Spec.cohorts_on d)
            ∧ length (filter (λ s, d ∈ default []
                        ((Spec.on_duty_days <$> n_days_c) !! s)) n_days) = 5%nat
            ∧ NoDup (shift <$> Spec.cohorts_on d)
            ∧ shift <$> Spec.cohorts_on d ⊆ shift <$> seq 0 7)
          (seq 0 7)) as Hdays by compute_done.
  destruct (below_seven _ Hdays d Hd) as (Hfive & Hnodup & Hin & Hvars & Hsub).
  split; [done|]. split; [done|].
  split; [exists (Spec.on_duty_days <$> n_days_c); by rewrite list_in_eq|].
  destruct (prob staff) as [p|] eqn:Hp; [|by rewrite prob_eq in Hp].
  destruct (constraints_lookup staff p d Hlen Hd Hp) as [_ Hlk].
  exists p, (Spec.coverage_constraint staff d).
  split; [done|]. split; [done|].
  rewrite prob_eq in Hp. apply (inj Some) in Hp. subst p.
  unfold Spec.coverage_constraint. cbn [lhs objective].
  rewrite !vars_of_lpSum.
  split; [unfold lpSum; by rewrite !length_fmap|].
  split; [apply lpSum_unit_coefficients|].
  split; [done|]. split; [done|].
  split; [by compute_done|by rewrite length_fmap].
Qed.

Lemma each_day_is_covered_by_five_shifts_witness :
  length (Spec.cohorts_on 6) = 5%nat
  ∧ NoDup (Spec.cohorts_on 6)
  ∧ (∃ l_in,
       list_in = Some l_in
       ∧ length (filter (λ s, 6%nat ∈ default [] (l_in !! s)) n_days) = 5%nat)
  ∧ ∃ p c,
      prob n_staff = Some p ∧ constraints p !! 6%nat = Some c
      ∧ length (lhs c) = 5%nat
      ∧ Forall (λ t, t.2 = 1) (lhs c)
      ∧ NoDup (vars_of (lhs c))
      ∧ vars_of (lhs c) ⊆ vars_of (objective p)
      ∧ NoDup (vars_of (objective p))
      ∧ length (vars_of (objective p)) = 7%nat.
Proof.
  apply (each_day_is_covered_by_five_shifts n_staff 6); [reflexivity|lia].
Defined.

(** C8: for every demand vector of length 7, every assignment within the
    bounds (integers ≥ 0) that satisfies all the coverage constraints of
    the built model has a total of at least [ceil(sum(demand) / 5)]; an
    optimal assignment is one of these. *)
Theorem total_headcount_lower_bound
    (staff : list Z) (varValue : string → Z) (p : LpProblem) :
  length staff = 7%nat → prob staff = Some p → feasible p varValue →
  Spec.ceil_div (Py.sum staff) 5 ≤ total_staff p varValue.
Proof.
  intros Hlen Hp Hfeas.
  apply ceil_div_le_iff; [lia|].
  by apply (week_demand_le_five_totals staff).
Qed.

Lemma total_headcount_lower_bound_witness :
  ∃ p, prob n_staff = Some p
       ∧ feasible p recorded_varValue
       ∧ Spec.ceil_div (Py.sum n_staff) 5 ≤ total_staff p recorded_varValue.
Proof.
  destruct (prob n_staff) as [p|] eqn:Hp; [|by rewrite prob_eq in Hp].
  exists p. split; [reflexivity|].
  split; [exact (recorded_feasible p Hp)|].
  exact (total_headcount_lower_bound n_staff recorded_varValue p
           eq_refl Hp (recorded_feasible p Hp)).
Defined.

(** C9, as the specification states it, fails on the code: a staffing list
    that is not a valid demand vector (wrong length, a negative entry) is
    not rejected; the model is built for it. *)
Lemma invalid_demand_is_not_rejected :
  ¬ Spec.valid_demand [31; -45]
  ∧ ∃ p, prob [31; -45] = Some p ∧ rhs <$> constraints p = [31; -45].
Proof.
  split.
  - intros [Hlen _]. discriminate Hlen.
  - eexists. split; [apply prob_eq|]. reflexivity.
Qed.

(** C9 (amended): the notebook validates nothing and takes no cycle
    configuration (the windows of 5 working days and 2 excluded shifts over
    7 days are fixed).  For every staffing list, whatever its length and
    the signs of its entries, the model is built without an error: its
    objective is the sum of the seven shift variables and its constraints
    are the coverage constraints of the first seven days at most, one for
    each staffing level, in the order of the days: the constraint of day
    [d] sums the variables of the shifts working on [d] and has the level
    of [d] as its right-hand side. *)
Theorem prob_is_built_for_every_staffing_list (staff : list Z) :
  ∃ p,
    prob staff = Some p
    ∧ constraints p
        = Spec.coverage_constraint staff <$> seq 0 (7 `min` length staff)
    ∧ (∀ d c, constraints p !! d = Some c →
         (d < 7 `min` length staff)%nat
         ∧ lhs c = lpSum (shift <$> Spec.cohorts_on d)
         ∧ staff !! d = Some (rhs c))
    ∧ length (constraints p) = (7 `min` length staff)%nat
    ∧ rhs <$> constraints p = take 7 staff
    ∧ objective p = lpSum (shift <$> seq 0 7).
Proof.
  eexists. split; [apply prob_eq|]. cbn [constraints objective].
  split; [done|].
  split.
  { intros d c Hc. rewrite list_lookup_fmap in Hc.
    destruct (seq 0 (7 `min` length staff) !! d) as [d'|] eqn:Hd;
      [|discriminate Hc].
    apply lookup_seq in Hd as [-> Hd]. simpl in Hc. injection Hc as <-.
    split; [done|]. split; [done|]. cbn [rhs Spec.coverage_constraint].
    apply list_lookup_lookup_total_lt. lia. }
  split; [by rewrite length_fmap, length_seq|].
  split; [|done].
  split_list staff 7%nat; reflexivity.
Qed.

(** * Further properties of the code *)

(** ** The circular list and its windows *)

(** X1: [ncycles(iterable, n)] has [n] times the length of [iterable];
    its entry of index [j] is the entry [j mod len(iterable)] of
    [iterable] when [j] is below that length, and there is none beyond
    (an index there raises [IndexError]). *)
Theorem ncycles_repeats_the_list {A} (l : list A) (n j : nat) :
  length (Py.ncycles l n) = (n * length l)%nat
  ∧ Py.index (Py.ncycles l n) j
      = if decide (j < n * length l)%nat
        then Py.index l (j mod length l) else None.
Proof.
  split; [apply ncycles_length|].
  unfold Py.index. case_decide as Hj.
  - by apply ncycles_lookup.
  - apply lookup_ge_None_2. rewrite ncycles_length. lia.
Qed.

(** X2: cycling [n + m] times is cycling [n] times followed by cycling
    [m] times; cycling zero times, or cycling the empty list, gives the
    empty list. *)
Theorem ncycles_add {A} (l : list A) (n m : nat) :
  Py.ncycles l (n + m) = Py.ncycles l n ++ Py.ncycles l m
  ∧ Py.ncycles l 0 = []
  ∧ Py.ncycles (@nil A) n = [].
Proof.
  unfold Py.ncycles. split; [|split; [done|]].
  - by rewrite replicate_add, join_app.
  - induction n as [|n IH]; [done|]. simpl. exact IH.
Qed.

(** X3: the entries of [ncycles(iterable, n)] are those of [iterable],
    provided [n] is positive: cycling neither adds nor loses a value. *)
Theorem ncycles_elements {A} (l : list A) (n : nat) (a : A) :
  a ∈ Py.ncycles l n ↔ (0 < n)%nat ∧ a ∈ l.
Proof.
  unfold Py.ncycles. induction n as [|n IH]; simpl.
  - rewrite elem_of_nil. split; [done|]. intros [? _]. lia.
  - rewrite elem_of_app, IH. split.
    + intros [H|[_ H]]; (split; [lia|done]).
    + intros [_ H]. by left.
Qed.

(** X4: the slice [[n_days_c[j] for j in range(a, b)]] raises
    [IndexError] exactly when the range is not empty and ends beyond the
    21 entries of the list; otherwise it has [b - a] entries. *)
Theorem window_fails_iff (a b : nat) :
  (window a b = None ↔ (a < b)%nat ∧ (21 < b)%nat)
  ∧ ∀ days, window a b = Some days → length days = (b - a)%nat.
Proof.
  split.
  - split.
    + intros Hnone.
      destruct (decide (b ≤ 21)%nat) as [Hb|Hb].
      { by rewrite window_in_bounds in Hnone. }
      split; [|lia].
      destruct (decide (a < b)%nat) as [|Hab]; [done|].
      unfold window, Py.range in Hnone.
      by replace (b - a)%nat with 0%nat in Hnone by lia.
    + intros [Hab Hb]. unfold window. apply mapM_None, Exists_exists.
      exists (a `max` 21)%nat. split.
      * unfold Py.range. apply elem_of_seq. lia.
      * apply n_days_c_lookup_ge. lia.
  - intros days Hdays. unfold window in Hdays.
    apply length_mapM in Hdays. rewrite <- Hdays.
    unfold Py.range. apply length_seq.
Qed.

Lemma on_duty_row (i : nat) :
  (i < 21)%nat →
  (Spec.on_duty_days <$> n_days_c) !! i = Some (Spec.on_duty_days (i mod 7)).
Proof.
  intros Hi. rewrite list_lookup_fmap.
  pose proof (n_days_c_lookup i Hi) as E. unfold Py.index in E. by rewrite E.
Qed.

Lemma excluded_row (i : nat) :
  (i < 21)%nat →
  ((λ d, [(d + 1) mod 7; (d + 2) mod 7]%nat) <$> n_days_c) !! i
    = Some [(i mod 7 + 1) mod 7; (i mod 7 + 2) mod 7]%nat.
Proof.
  intros Hi. rewrite list_lookup_fmap.
  pose proof (n_days_c_lookup i Hi) as E. unfold Py.index in E. by rewrite E.
Qed.

(** X5: [list_in] and [list_excl] are built over the tripled list, so each
    has 21 rows, not 7: the row of index [i] is the row of index
    [i mod 7]. (Only the first seven are read: [zip] stops with [n_days],
    and the keys of [dct_work] are below 7.) *)
Theorem window_lists_have_21_periodic_rows (i : nat) :
  (i < 21)%nat →
  ∃ l_in excl,
    list_in = Some l_in ∧ list_excl = Some excl
    ∧ length l_in = 21%nat ∧ length excl = 21%nat
    ∧ is_Some (Py.index l_in i)
    ∧ Py.index l_in i = Py.index l_in (i mod 7)
    ∧ Py.index excl i = Py.index excl (i mod 7)
    ∧ Py.index l_in 21 = None ∧ Py.index excl 21 = None.
Proof.
  intros Hi. eexists _, _.
  split; [apply list_in_eq|]. split; [apply list_excl_eq|].
  rewrite !length_fmap, n_days_c_length.
  split; [done|]. split; [done|].
  assert (i mod 7 < 21)%nat as Hm
    by (pose proof (Nat.mod_upper_bound i 7); lia).
  unfold Py.index.
  rewrite (on_duty_row i Hi), (on_duty_row _ Hm).
  rewrite (excluded_row i Hi), (excluded_row _ Hm).
  rewrite Nat.Div0.mod_mod.
  split; [eauto|]. split; [done|]. split; [done|].
  split; apply lookup_ge_None_2; by rewrite length_fmap, n_days_c_length.
Qed.

Lemma window_lists_have_21_periodic_rows_witness :
  ∃ l_in excl,
    list_in = Some l_in ∧ list_excl = Some excl
    ∧ length l_in = 21%nat ∧ length excl = 21%nat
    ∧ is_Some (Py.index l_in 17)
    ∧ Py.index l_in 17 = Py.index l_in (17 mod 7)
    ∧ Py.index excl 17 = Py.index excl (17 mod 7)
    ∧ Py.index l_in 21 = None ∧ Py.index excl 21 = None.
Proof. apply (window_lists_have_21_periodic_rows 17). lia. Defined.

(** X6: every row of [list_in] holds 5 distinct days of the week and every
    row of [list_excl] holds 2 distinct days of the week; the two days of
    the row of [list_excl] are the second and third day of the row of
    [list_in] with the same index. *)
Theorem window_rows_shape (i : nat) (row_in row_excl : list nat) :
  (list_in ≫= (λ l, Py.index l i)) = Some row_in →
  (list_excl ≫= (λ l, Py.index l i)) = Some row_excl →
  length row_in = 5%nat ∧ NoDup row_in ∧ Forall (λ d, d < 7)%nat row_in
  ∧ length row_excl = 2%nat ∧ NoDup row_excl
  ∧ row_excl = take 2 (drop 1 row_in).
Proof.
  rewrite list_in_eq, list_excl_eq. cbn [mbind option_bind]. unfold Py.index.
  intros Hin Hexcl.
  assert (i < 21)%nat as Hi.
  { apply lookup_lt_Some in Hin.
    by rewrite length_fmap, n_days_c_length in Hin. }
  rewrite (on_duty_row i Hi) in Hin. rewrite (excluded_row i Hi) in Hexcl.
  assert (i mod 7 < 7)%nat as Hm by (apply Nat.mod_upper_bound; lia).
  revert Hm Hin Hexcl. generalize (i mod 7)%nat. intros m Hm Hin Hexcl.
  apply (inj Some) in Hin. apply (inj Some) in Hexcl. subst row_in row_excl.
  revert m Hm. apply below_seven. compute_done.
Qed.

Lemma window_rows_shape_witness :
  length [6; 0; 1; 2; 3]%nat = 5%nat ∧ NoDup [6; 0; 1; 2; 3]%nat
  ∧ Forall (λ d, d < 7)%nat [6; 0; 1; 2; 3]%nat
  ∧ length [0; 1]%nat = 2%nat ∧ NoDup [0; 1]%nat
  ∧ [0; 1]%nat = take 2 (drop 1 [6; 0; 1; 2; 3]%nat).
Proof.
  apply (window_rows_shape 13); vm_compute; reflexivity.
Defined.

(** X7: starting one day later moves every working day, and every excluded
    shift, one day later around the week. *)
Theorem window_lists_rotate (s : nat) (row_in row_excl : list nat) :
  (s < 7)%nat →
  (list_in ≫= (λ l, Py.index l s)) = Some row_in →
  (list_excl ≫= (λ l, Py.index l s)) = Some row_excl →
  (list_in ≫= (λ l, Py.index l ((s + 1) mod 7)))
    = Some ((λ d, (d + 1) mod 7)%nat <$> row_in)
  ∧ (list_excl ≫= (λ l, Py.index l ((s + 1) mod 7)))
    = Some ((λ d, (d + 1) mod 7)%nat <$> row_excl).
Proof.
  rewrite list_in_eq, list_excl_eq. cbn [mbind option_bind]. unfold Py.index.
  intros Hs.
  assert ((s + 1) mod 7 < 21)%nat as Hm
    by (pose proof (Nat.mod_upper_bound (s + 1) 7); lia).
  rewrite (on_duty_row s) by lia. rewrite (excluded_row s) by lia.
  rewrite (on_duty_row _ Hm), (excluded_row _ Hm).
  intros Hin Hexcl.
  apply (inj Some) in Hin. apply (inj Some) in Hexcl. subst row_in row_excl.
  clear Hm. revert s Hs. apply below_seven. compute_done.
Qed.

Lemma window_lists_rotate_witness :
  (list_in ≫= (λ l, Py.index l ((6 + 1) mod 7)))
    = Some ((λ d, (d + 1) mod 7)%nat <$> [6; 0; 1; 2; 3]%nat)
  ∧ (list_excl ≫= (λ l, Py.index l ((6 + 1) mod 7)))
    = Some ((λ d, (d + 1) mod 7)%nat <$> [0; 1]%nat).
Proof.
  apply (window_lists_rotate 6); [lia|vm_compute; reflexivity..].
Defined.

(** ** The decision variables *)

Lemma x_lookup_ge (i : nat) : (7 ≤ i)%nat → x !! i = None.
Proof.
  intros Hi. unfold x, Pulp.dicts. apply not_elem_of_list_to_map_1.
  rewrite <- list_fmap_compose.
  intros (k & Hk & Hin%elem_of_seq)%list_elem_of_fmap. simpl in Hk. lia.
Qed.

(** X8: the dictionary [x] holds a variable for the indices 0..6 and for
    no other: [x[i]] raises [KeyError] for [i ≥ 7], and a comprehension
    [[x[i] for i in l]] succeeds exactly when every index in [l] is below
    7, giving the variables in the order of [l]. *)
Theorem x_has_the_seven_shifts (i : nat) (l : list nat) :
  x !! i = (if decide (i < 7)%nat then Some (shift i) else None)
  ∧ (is_Some (x_at l) ↔ Forall (λ k, k < 7)%nat l)
  ∧ (Forall (λ k, k < 7)%nat l → x_at l = Some (shift <$> l)).
Proof.
  split; [|split].
  - case_decide; [by apply x_lookup|apply x_lookup_ge; lia].
  - split; [|intros Hl; rewrite (x_at_shifts l Hl); eauto].
    intros Hsome. unfold x_at in Hsome.
    apply mapM_is_Some in Hsome.
    eapply Forall_impl; [exact Hsome|]. intros k [v Hv]. simpl in Hv.
    destruct (decide (k < 7)%nat) as [|Hk]; [done|].
    rewrite x_lookup_ge in Hv by lia. discriminate Hv.
  - apply x_at_shifts.
Qed.

(** X9: two shift variables with the same name have the same index: the
    names [shift__i] tell the variables apart, whatever the indices. *)
Theorem shift_names_are_distinct (i j : nat) :
  name (shift i) = name (shift j) → i = j.
Proof.
  unfold shift, Pulp.dicts_entry, Py.str. cbn [name].
  intros H. by repeat apply (inj _) in H.
Qed.

Lemma shift_names_are_distinct_witness : 3%nat = 3%nat.
Proof. apply (shift_names_are_distinct 3 3). reflexivity. Defined.

(** X10: [int(v.name[-1])] gives back the index of a shift variable as
    long as the index is a single digit; it reads only the last digit, so
    the variable of index 10 would be filed under the key 0 of shift 0. *)
Theorem shift_key_round_trip (i : nat) :
  (i < 10)%nat →
  (Py.last_char (name (shift i)) ≫= Py.int_of_char) = Some i
  ∧ (Py.last_char (name (shift 10)) ≫= Py.int_of_char) = Some 0%nat.
Proof.
  intros Hi. split; [|by vm_compute].
  assert (Forall (λ i, (Py.last_char (name (shift i)) ≫= Py.int_of_char)
                       = Some i) (seq 0 10)) as H by compute_done.
  rewrite Forall_forall in H. apply H, elem_of_seq. lia.
Qed.

Lemma shift_key_round_trip_witness :
  (Py.last_char (name (shift 6)) ≫= Py.int_of_char) = Some 6%nat
  ∧ (Py.last_char (name (shift 10)) ≫= Py.int_of_char) = Some 0%nat.
Proof. apply (shift_key_round_trip 6). lia. Defined.

(** X11: whatever the staffing list (even empty), [prob.variables()] is
    the seven shift variables in the order of the shifts, and the solution
    [dct_work] read from them has exactly the keys 0..6, each with the
    value of its own variable. *)
Theorem dct_work_has_the_seven_shifts
    (staff : list Z) (varValue : string → Z) (k : nat) :
  ∃ p (work : gmap nat Z),
    prob staff = Some p
    ∧ variables p = shift <$> seq 0 7
    ∧ dct_work p varValue = Some work
    ∧ work !! k = (if decide (k < 7)%nat
                   then Some (varValue (name (shift k))) else None).
Proof.
  destruct (prob staff) as [p|] eqn:Hp; [|by rewrite prob_eq in Hp].
  exists p, (list_to_map ((λ s, (s, headcount varValue s)) <$> seq 0 7)).
  split; [done|].
  split; [exact (variables_prob staff p Hp)|].
  split; [exact (dct_work_eq staff varValue p Hp)|].
  case_decide as Hk; [by apply work_lookup|].
  apply not_elem_of_list_to_map_1. rewrite <- list_fmap_compose.
  intros (s & Hs & Hin%elem_of_seq)%list_elem_of_fmap. simpl in Hs. lia.
Qed.

(** ** The model as a system of inequalities *)

(** The model built for seven staffing levels, written out on the shift
    headcounts [h s]: the rows of the problem handed to the solver. *)
Lemma feasible_explicit
    (staff : list Z) (varValue : string → Z) (p : LpProblem) :
  length staff = 7%nat → prob staff = Some p →
  let h := headcount varValue in
  feasible p varValue ↔
    (0 ≤ h 0%nat ∧ 0 ≤ h 1%nat ∧ 0 ≤ h 2%nat ∧ 0 ≤ h 3%nat ∧ 0 ≤ h 4%nat
     ∧ 0 ≤ h 5%nat ∧ 0 ≤ h 6%nat)
    ∧ staff !!! 0%nat ≤ h 0%nat + h 3%nat + h 4%nat + h 5%nat + h 6%nat
    ∧ staff !!! 1%nat ≤ h 0%nat + h 1%nat + h 4%nat + h 5%nat + h 6%nat
    ∧ staff !!! 2%nat ≤ h 0%nat + h 1%nat + h 2%nat + h 5%nat + h 6%nat
    ∧ staff !!! 3%nat ≤ h 0%nat + h 1%nat + h 2%nat + h 3%nat + h 6%nat
    ∧ staff !!! 4%nat ≤ h 0%nat + h 1%nat + h 2%nat + h 3%nat + h 4%nat
    ∧ staff !!! 5%nat ≤ h 1%nat + h 2%nat + h 3%nat + h 4%nat + h 5%nat
    ∧ staff !!! 6%nat ≤ h 2%nat + h 3%nat + h 4%nat + h 5%nat + h 6%nat.
Proof.
  intros Hlen Hp h. rewrite (feasible_iff staff varValue p Hp), Hlen.
  change (7 `min` 7)%nat with 7%nat. cbn [seq].
  rewrite !Forall_cons, !Forall_nil. unfold Spec.coverage.
  repeat match goal with
         | |- context [Spec.cohorts_on ?d] =>
             let l := eval vm_compute in (Spec.cohorts_on d) in
             change (Spec.cohorts_on d) with l
         end.
  cbn [fmap list_fmap Py.sum foldr]. fold h.
  intuition lia.
Qed.

Lemma total_staff_explicit
    (staff : list Z) (varValue : string → Z) (p : LpProblem) :
  prob staff = Some p →
  let h := headcount varValue in
  total_staff p varValue
    = h 0%nat + h 1%nat + h 2%nat + h 3%nat + h 4%nat + h 5%nat + h 6%nat.
Proof.
  intros Hp h. rewrite (total_staff_eq staff varValue p Hp).
  cbn [seq fmap list_fmap Py.sum foldr]. fold h. lia.
Qed.

Lemma staff_by_day (staff : list Z) (P : Z → Prop) :
  length staff = 7%nat →
  Forall P staff ↔
    P (staff !!! 0%nat) ∧ P (staff !!! 1%nat) ∧ P (staff !!! 2%nat)
    ∧ P (staff !!! 3%nat) ∧ P (staff !!! 4%nat) ∧ P (staff !!! 5%nat)
    ∧ P (staff !!! 6%nat).
Proof.
  intros Hlen. split_list staff 7%nat; try discriminate Hlen.
  destruct staff; [|discriminate Hlen].
  rewrite !Forall_cons, Forall_nil. cbn. tauto.
Qed.

(** X12: in every assignment that is feasible for the model of a demand
    vector of length 7, the total headcount is at least the demand of
    every single day, hence at least the largest daily demand. *)
Theorem total_covers_each_day
    (staff : list Z) (varValue : string → Z) (p : LpProblem) :
  length staff = 7%nat → prob staff = Some p → feasible p varValue →
  Forall (λ n, n ≤ total_staff p varValue) staff.
Proof.
  intros Hlen Hp Hfeas.
  apply (feasible_explicit staff varValue p Hlen Hp) in Hfeas.
  rewrite (total_staff_explicit staff varValue p Hp).
  apply (staff_by_day staff _ Hlen). cbv zeta in Hfeas. lia.
Qed.

Lemma total_covers_each_day_witness :
  ∃ p, prob n_staff = Some p
       ∧ Forall (λ n, n ≤ total_staff p recorded_varValue) n_staff.
Proof.
  destruct (prob n_staff) as [p|] eqn:Hp; [|by rewrite prob_eq in Hp].
  exists p. split; [reflexivity|].
  exact (total_covers_each_day n_staff recorded_varValue p
           eq_refl Hp (recorded_feasible p Hp)).
Defined.

Lemma foldr_max_bound (l : list Z) :
  0 ≤ foldr Z.max 0 l ∧ Forall (λ n, n ≤ foldr Z.max 0 l) l.
Proof.
  induction l as [|n l [IH0 IH]]; cbn [foldr]; [by split|].
  split; [lia|]. apply Forall_cons. split; [lia|].
  eapply Forall_impl; [exact IH|]. cbn. intros; lia.
Qed.

(** X13: the model of a demand vector of length 7 is never infeasible:
    hiring the largest daily demand [M] (or 0 if no demand is positive) on
    the shifts starting on day 0 and on day 2 covers every day, so an
    optimal assignment never totals more than [2 M]. *)
Theorem model_is_always_feasible (staff : list Z) (p : LpProblem) :
  length staff = 7%nat → prob staff = Some p →
  (∃ varValue, feasible p varValue
               ∧ total_staff p varValue = 2 * foldr Z.max 0 staff)
  ∧ ∀ varValue, optimal p varValue →
      total_staff p varValue ≤ 2 * foldr Z.max 0 staff.
Proof.
  intros Hlen Hp.
  destruct (foldr_max_bound staff) as [HM0 HM].
  apply (staff_by_day staff _ Hlen) in HM.
  revert HM0 HM. generalize (foldr Z.max 0 staff). intros M HM0 HM.
  set (v := λ nm : string,
         if bool_decide (nm = name (shift 0) ∨ nm = name (shift 2))
         then M else 0).
  assert (feasible p v ∧ total_staff p v = 2 * M) as [Hfeas Htot].
  { rewrite (feasible_explicit staff v p Hlen Hp).
    rewrite (total_staff_explicit staff v p Hp). cbv zeta.
    change (headcount v 0) with M. change (headcount v 1) with 0.
    change (headcount v 2) with M. change (headcount v 3) with 0.
    change (headcount v 4) with 0. change (headcount v 5) with 0.
    change (headcount v 6) with 0. lia. }
  split; [by exists v|].
  intros varValue [_ Hmin]. specialize (Hmin v Hfeas).
  fold (total_staff p varValue) in Hmin. fold (total_staff p v) in Hmin. lia.
Qed.

Lemma model_is_always_feasible_witness :
  ∃ p, prob n_staff = Some p
       ∧ (∃ varValue, feasible p varValue
                      ∧ total_staff p varValue = 2 * foldr Z.max 0 n_staff)
       ∧ ∀ varValue, optimal p varValue →
           total_staff p varValue ≤ 2 * foldr Z.max 0 n_staff.
Proof.
  destruct (prob n_staff) as [p|] eqn:Hp; [|by rewrite prob_eq in Hp].
  exists p. split; [reflexivity|].
  exact (model_is_always_feasible n_staff p eq_refl Hp).
Defined.

(** X14: when no day of a demand vector of length 7 asks for staff (every
    level is 0 or less), hiring nobody is optimal, and every optimal
    assignment hires nobody: total 0 and 0 on each of the seven shifts. *)
Theorem no_demand_no_staff
    (staff : list Z) (varValue : string → Z) (p : LpProblem) :
  length staff = 7%nat → prob staff = Some p → Forall (λ n, n ≤ 0) staff →
  optimal p (λ _, 0)
  ∧ (optimal p varValue →
       total_staff p varValue = 0
       ∧ Forall (λ s, headcount varValue s = 0) (seq 0 7)).
Proof.
  intros Hlen Hp Hzero. apply (staff_by_day staff _ Hlen) in Hzero.
  cbv beta in Hzero.
  assert (feasible p (λ _, 0)) as Hnone.
  { rewrite (feasible_explicit staff _ p Hlen Hp). cbv zeta.
    unfold headcount. cbv beta. lia. }
  assert (total_staff p (λ _, 0) = 0) as Htot0.
  { rewrite (total_staff_explicit staff _ p Hp). reflexivity. }
  split.
  - split; [done|]. intros other Hother.
    fold (total_staff p (λ _ : string, 0)). fold (total_staff p other).
    rewrite Htot0.
    apply (feasible_explicit staff other p Hlen Hp) in Hother.
    rewrite (total_staff_explicit staff other p Hp). cbv zeta in *. lia.
  - intros [Hfeas Hmin]. specialize (Hmin _ Hnone).
    fold (total_staff p varValue) in Hmin.
    fold (total_staff p (λ _ : string, 0)) in Hmin. rewrite Htot0 in Hmin.
    apply (feasible_explicit staff varValue p Hlen Hp) in Hfeas.
    rewrite (total_staff_explicit staff varValue p Hp) in *.
    cbv zeta in *. cbn [seq]. rewrite !Forall_cons, Forall_nil. lia.
Qed.

Lemma no_demand_no_staff_witness :
  ∃ p, prob [0; 0; 0; 0; 0; 0; 0] = Some p
       ∧ optimal p (λ _, 0)
       ∧ total_staff p (λ _, 0) = 0
       ∧ Forall (λ s, headcount (λ _, 0) s = 0) (seq 0 7).
Proof.
  destruct (prob [0; 0; 0; 0; 0; 0; 0]) as [p|] eqn:Hp;
    [|by rewrite prob_eq in Hp].
  exists p. split; [reflexivity|].
  assert (Forall (λ n, n ≤ 0) [0; 0; 0; 0; 0; 0; 0]) as Hzero
    by compute_done.
  destruct (no_demand_no_staff [0; 0; 0; 0; 0; 0; 0] (λ _, 0) p
              eq_refl Hp Hzero) as [Hopt Hall].
  split; [exact Hopt|]. exact (Hall Hopt).
Defined.

Lemma Forall2_by_day (R : Z → Z → Prop) (staff' staff : list Z) :
  length staff = 7%nat → Forall2 R staff' staff →
  R (staff' !!! 0%nat) (staff !!! 0%nat) ∧ R (staff' !!! 1%nat) (staff !!! 1%nat)
  ∧ R (staff' !!! 2%nat) (staff !!! 2%nat) ∧ R (staff' !!! 3%nat) (staff !!! 3%nat)
  ∧ R (staff' !!! 4%nat) (staff !!! 4%nat) ∧ R (staff' !!! 5%nat) (staff !!! 5%nat)
  ∧ R (staff' !!! 6%nat) (staff !!! 6%nat).
Proof.
  intros Hlen H.
  repeat (destruct H as [|? ? ? ? ? H]; [discriminate Hlen|]).
  cbn. tauto.
Qed.

(** X15: an assignment that is feasible for a demand vector of length 7
    stays feasible when the demand of any day goes down. *)
Theorem feasible_for_less_demand
    (staff staff' : list Z) (varValue : string → Z) (p p' : LpProblem) :
  length staff = 7%nat → Forall2 Z.le staff' staff →
  prob staff = Some p → prob staff' = Some p' →
  feasible p varValue → feasible p' varValue.
Proof.
  intros Hlen Hle Hp Hp'.
  assert (length staff' = 7%nat) as Hlen'
    by (by rewrite (Forall2_length _ _ _ Hle)).
  apply (Forall2_by_day _ _ _ Hlen) in Hle.
  rewrite (feasible_explicit staff varValue p Hlen Hp).
  rewrite (feasible_explicit staff' varValue p' Hlen' Hp').
  cbv zeta. lia.
Qed.

Lemma feasible_for_less_demand_witness :
  ∃ p', prob [30; 45; 40; 0; 48; 30; 20] = Some p'
        ∧ feasible p' recorded_varValue.
Proof.
  destruct (prob n_staff) as [p|] eqn:Hp; [|by rewrite prob_eq in Hp].
  destruct (prob [30; 45; 40; 0; 48; 30; 20]) as [p'|] eqn:Hp';
    [|by rewrite prob_eq in Hp'].
  exists p'. split; [reflexivity|].
  refine (feasible_for_less_demand n_staff [30; 45; 40; 0; 48; 30; 20]
            recorded_varValue p p' eq_refl _ Hp Hp' (recorded_feasible p Hp)).
  compute_done.
Defined.

(** X16: an assignment that is feasible stays feasible when workers are
    added to any shift: the model has no upper bound and no constraint
    that more staff could break. *)
Theorem feasible_with_more_staff
    (staff : list Z) (varValue more : string → Z) (p : LpProblem) :
  length staff = 7%nat → prob staff = Some p →
  (∀ nm, varValue nm ≤ more nm) →
  feasible p varValue → feasible p more.
Proof.
  intros Hlen Hp Hmore.
  rewrite (feasible_explicit staff varValue p Hlen Hp).
  rewrite (feasible_explicit staff more p Hlen Hp).
  cbv zeta. unfold headcount.
  pose proof (Hmore (name (shift 0))). pose proof (Hmore (name (shift 1))).
  pose proof (Hmore (name (shift 2))). pose proof (Hmore (name (shift 3))).
  pose proof (Hmore (name (shift 4))). pose proof (Hmore (name (shift 5))).
  pose proof (Hmore (name (shift 6))). lia.
Qed.

Lemma feasible_with_more_staff_witness :
  ∃ p, prob n_staff = Some p
       ∧ feasible p (λ nm, recorded_varValue nm + 1).
Proof.
  destruct (prob n_staff) as [p|] eqn:Hp; [|by rewrite prob_eq in Hp].
  exists p. split; [reflexivity|].
  refine (feasible_with_more_staff n_staff recorded_varValue _ p
            eq_refl Hp _ (recorded_feasible p Hp)).
  intros nm. lia.
Defined.

Lemma zip_with_by_day (staff1 staff2 : list Z) (d : nat) :
  length staff1 = 7%nat → length staff2 = 7%nat → (d < 7)%nat →
  zip_with Z.add staff1 staff2 !!! d = staff1 !!! d + staff2 !!! d.
Proof.
  intros H1 H2 Hd.
  split_list staff1 7%nat; try discriminate H1.
  split_list staff2 7%nat; try discriminate H2.
  revert d Hd. apply below_seven.
  repeat (apply Forall_cons; split; [reflexivity|]). apply Forall_nil_2.
Qed.

(** X17: staffing adds up: an assignment feasible for one demand vector
    plus an assignment feasible for another is feasible for the sum of
    the two demand vectors (day by day), with the sum of the totals. *)
Theorem feasible_assignments_add_up
    (staff1 staff2 : list Z) (v1 v2 : string → Z) (p1 p2 p : LpProblem) :
  length staff1 = 7%nat → length staff2 = 7%nat →
  prob staff1 = Some p1 → prob staff2 = Some p2 →
  prob (zip_with Z.add staff1 staff2) = Some p →
  feasible p1 v1 → feasible p2 v2 →
  feasible p (λ nm, v1 nm + v2 nm)
  ∧ total_staff p (λ nm, v1 nm + v2 nm)
      = total_staff p1 v1 + total_staff p2 v2.
Proof.
  intros H1 H2 Hp1 Hp2 Hp.
  assert (length (zip_with Z.add staff1 staff2) = 7%nat) as Hlen
    by (rewrite length_zip_with; lia).
  rewrite (feasible_explicit staff1 v1 p1 H1 Hp1).
  rewrite (feasible_explicit staff2 v2 p2 H2 Hp2).
  rewrite (feasible_explicit _ _ p Hlen Hp).
  rewrite (total_staff_explicit _ _ p Hp).
  rewrite (total_staff_explicit _ _ p1 Hp1), (total_staff_explicit _ _ p2 Hp2).
  rewrite !(zip_with_by_day staff1 staff2) by (done || lia).
  cbv zeta. unfold headcount. lia.
Qed.

Lemma feasible_assignments_add_up_witness :
  ∃ p, prob (zip_with Z.add n_staff n_staff) = Some p
       ∧ feasible p (λ nm, recorded_varValue nm + recorded_varValue nm)
       ∧ total_staff p (λ nm, recorded_varValue nm + recorded_varValue nm)
           = 102.
Proof.
  destruct (prob n_staff) as [p1|] eqn:Hp1; [|by rewrite prob_eq in Hp1].
  destruct (prob (zip_with Z.add n_staff n_staff)) as [p|] eqn:Hp;
    [|by rewrite prob_eq in Hp].
  exists p. split; [reflexivity|].
  destruct (feasible_assignments_add_up n_staff n_staff
              recorded_varValue recorded_varValue p1 p1 p
              eq_refl eq_refl Hp1 Hp1 Hp
              (recorded_feasible p1 Hp1) (recorded_feasible p1 Hp1))
    as [Hfeas Htot].
  split; [exact Hfeas|].
  rewrite Htot, (recorded_total p1 Hp1). reflexivity.
Defined.

(** X18: for the notebook's demand [31, 45, 40, 40, 48, 30, 20], every
    optimal assignment meets the demand of Tuesday and of Friday with
    equality, and over the whole week it leaves exactly one worker-day
    above the demand. *)
Theorem optimum_binds_tuesday_and_friday
    (varValue : string → Z) (p : LpProblem) :
  prob n_staff = Some p → optimal p varValue →
  ∃ tuesday friday,
    constraints p !! 1%nat = Some tuesday ∧ rhs tuesday = 45
    ∧ value varValue (lhs tuesday) = 45
    ∧ constraints p !! 4%nat = Some friday ∧ rhs friday = 48
    ∧ value varValue (lhs friday) = 48
    ∧ Py.sum ((λ c, value varValue (lhs c) - rhs c) <$> constraints p) = 1.
Proof.
  intros Hp [Hfeas Hmin].
  specialize (Hmin recorded_varValue (recorded_feasible p Hp)).
  fold (total_staff p varValue) in Hmin.
  fold (total_staff p recorded_varValue) in Hmin.
  rewrite (recorded_total p Hp) in Hmin.
  rewrite (total_staff_explicit n_staff varValue p Hp) in Hmin.
  apply (feasible_explicit n_staff varValue p eq_refl Hp) in Hfeas.
  cbv zeta in Hfeas, Hmin. unfold n_staff in Hfeas. cbn in Hfeas.
  destruct (constraints_lookup n_staff p 1 eq_refl ltac:(lia) Hp) as [Hcs H1].
  destruct (constraints_lookup n_staff p 4 eq_refl ltac:(lia) Hp) as [_ H4].
  exists (Spec.coverage_constraint n_staff 1), (Spec.coverage_constraint n_staff 4).
  rewrite Hcs. unfold Spec.coverage_constraints. rewrite Hcs in H1, H4.
  split; [exact H1|]. split; [reflexivity|].
  cbn [Spec.C seq fmap list_fmap Py.sum foldr].
  unfold Spec.coverage_constraint. cbn [lhs rhs].
  rewrite !value_lpSum_shifts.
  repeat match goal with
         | |- context [Spec.cohorts_on ?d] =>
             let l := eval vm_compute in (Spec.cohorts_on d) in
             change (Spec.cohorts_on d) with l
         end.
  cbn [fmap list_fmap Py.sum foldr]. unfold n_staff. cbn [lookup_total list_lookup_total].
  split; [lia|]. split; [exact H4|]. split; [reflexivity|]. lia.
Qed.

Lemma optimum_binds_tuesday_and_friday_witness :
  ∃ p tuesday friday,
    prob n_staff = Some p
    ∧ constraints p !! 1%nat = Some tuesday ∧ rhs tuesday = 45
    ∧ value recorded_varValue (lhs tuesday) = 45
    ∧ constraints p !! 4%nat = Some friday ∧ rhs friday = 48
    ∧ value recorded_varValue (lhs friday) = 48
    ∧ Py.sum ((λ c, value recorded_varValue (lhs c) - rhs c)
                <$> constraints p) = 1.
Proof.
  destruct (prob n_staff) as [p|] eqn:Hp; [|by rewrite prob_eq in Hp].
  destruct (optimum_binds_tuesday_and_friday recorded_varValue p Hp
              (recorded_optimal p Hp)) as (tuesday & friday & H).
  exists p, tuesday, friday. split; [reflexivity|exact H].
Defined.

(** X19: the model reads at most seven staffing levels and says nothing
    when there are more or fewer: levels after the seventh are ignored
    (the model of a list is the model of its first seven entries), and with
    fewer than seven levels the later days get no constraint at all, so
    that an assignment is feasible as soon as it is non-negative and covers
    the days that have a level. *)
Theorem prob_reads_seven_levels (staff : list Z) :
  prob staff = prob (take 7 staff)
  ∧ ∀ p varValue, prob staff = Some p →
      (feasible p varValue ↔
         Forall (λ s, 0 ≤ headcount varValue s) (seq 0 7)
         ∧ Forall (λ d, staff !!! d ≤ Spec.coverage (headcount varValue) d)
             (seq 0 (7 `min` length staff))).
Proof.
  split.
  - rewrite !prob_eq. split_list staff 7%nat; vm_compute; reflexivity.
  - intros p varValue Hp. exact (feasible_iff staff varValue p Hp).
Qed.

(** ** The schedule table *)

Lemma list_to_map_by_key {B} (h : nat → Z → B) (work : gmap nat Z) (k : nat) :
  (list_to_map ((λ kv, (kv.1, h kv.1 kv.2)) <$> map_to_list work)
     : gmap nat B) !! k = h k <$> work !! k.
Proof.
  assert (((λ kv : nat * Z, (kv.1, h kv.1 kv.2)) <$> map_to_list work).*1
          = (map_to_list work).*1) as Hfst.
  { rewrite <- list_fmap_compose. by apply list_fmap_ext. }
  destruct (work !! k) as [w|] eqn:Hk; simpl.
  - apply elem_of_list_to_map_1.
    + rewrite Hfst. apply NoDup_fst_map_to_list.
    + apply list_elem_of_fmap. exists (k, w).
      split; [done|]. by apply elem_of_map_to_list.
  - apply not_elem_of_list_to_map_1. rewrite Hfst.
    intros ([k' w] & -> & Hin)%list_elem_of_fmap.
    apply elem_of_map_to_list in Hin. simpl in Hk. congruence.
Qed.

Lemma dict_sch_spec (work : gmap nat Z) :
  (dict_sch work = None ↔ ∃ k, is_Some (work !! k) ∧ (21 ≤ k)%nat)
  ∧ ∀ sch, dict_sch work = Some sch →
      ∀ k, sch !! k
           = (λ w, (λ d, if decide (d ∈ Spec.on_duty_days (k mod 7))
                         then w else 0) <$> seq 0 7) <$> work !! k.
Proof.
  unfold dict_sch. rewrite list_in_eq. cbn [mbind option_bind].
  set (f := λ kv : nat * Z,
              days ← Py.index (Spec.on_duty_days <$> n_days_c) kv.1;
              Some (kv.1, (λ i, if decide (i ∈ days) then kv.2 else 0)
                            <$> n_days)).
  set (h := λ (k : nat) (w : Z),
              (λ d, if decide (d ∈ Spec.on_duty_days (k mod 7))
                    then w else 0) <$> seq 0 7).
  assert (∀ kv, (kv.1 < 21)%nat → f kv = Some (kv.1, h kv.1 kv.2)) as Hlt.
  { intros kv Hkv. unfold f, Py.index. by rewrite (on_duty_row _ Hkv). }
  assert (∀ kv, (21 ≤ kv.1)%nat → f kv = None) as Hge.
  { intros kv Hkv. unfold f, Py.index.
    rewrite (lookup_ge_None_2 (Spec.on_duty_days <$> n_days_c) kv.1); [done|].
    by rewrite length_fmap, n_days_c_length. }
  assert (mapM f (map_to_list work) = None
          ↔ ∃ k, is_Some (work !! k) ∧ (21 ≤ k)%nat) as Hnone.
  { rewrite mapM_None, Exists_exists. split.
    - intros ([k w] & Hin%elem_of_map_to_list & Hf). exists k.
      split; [eauto|]. destruct (decide (21 ≤ k)%nat) as [|Hk]; [done|].
      rewrite Hlt in Hf by (simpl; lia). discriminate Hf.
    - intros (k & [w Hw] & Hk). exists (k, w).
      split; [by apply elem_of_map_to_list|]. by apply Hge. }
  split.
  - rewrite <- Hnone. destruct (mapM f (map_to_list work)); simpl; split; done.
  - intros sch Hsch k.
    assert (mapM f (map_to_list work)
            = Some ((λ kv, (kv.1, h kv.1 kv.2)) <$> map_to_list work)) as Hrows.
    { apply mapM_Some_2, Forall2_fmap_r, Forall_Forall2_diag, Forall_forall.
      intros [k' w'] Hin%elem_of_map_to_list. apply Hlt. simpl.
      destruct (decide (k' < 21)%nat) as [|Hk']; [done|].
      assert (mapM f (map_to_list work) = None) as E'
        by (apply Hnone; exists k'; split; [eauto|lia]).
      rewrite E' in Hsch. discriminate Hsch. }
    rewrite Hrows in Hsch. simpl in Hsch. injection Hsch as <-.
    apply list_to_map_by_key.
Qed.

(** X20: for any dictionary [dct_work], the table [dict_sch] is built
    without error exactly when every key is below 21 (the length of
    [list_in]); a key of 21 or more raises [IndexError].  When it is
    built it has the keys of [dct_work], and the row of key [k] holds the
    value of [k] on the working days of the shift [k mod 7] and 0 on the
    other days. *)
Theorem dict_sch_rows (work : gmap nat Z) :
  (dict_sch work = None ↔ ∃ k, is_Some (work !! k) ∧ (21 ≤ k)%nat)
  ∧ ∀ sch, dict_sch work = Some sch →
      ∀ k, sch !! k
           = (λ w, (λ d, if decide (d ∈ Spec.on_duty_days (k mod 7))
                         then w else 0) <$> seq 0 7) <$> work !! k.
Proof. exact (dict_sch_spec work). Qed.

Lemma row_sum (z : Z) (s : nat) :
  (s < 7)%nat →
  Py.sum ((λ d, if decide (d ∈ Spec.on_duty_days s) then z else 0) <$> seq 0 7)
    = 5 * z.
Proof.
  revert s. apply below_seven.
  repeat (apply Forall_cons; split;
          [match goal with
           | |- Py.sum ?l = _ =>
               let l' := eval vm_compute in l in change l with l'
           end; cbn [Py.sum foldr]; lia|]).
  apply Forall_nil_2.
Qed.

Lemma column_sum (h : nat → Z) (d : nat) :
  (d < 7)%nat →
  Py.sum ((λ s, if decide (d ∈ Spec.on_duty_days s) then h s else 0) <$> seq 0 7)
    = Spec.coverage h d.
Proof.
  revert d. apply below_seven. unfold Spec.coverage.
  repeat (apply Forall_cons; split;
          [match goal with
           | |- Py.sum ?l = Py.sum ?k =>
               let l' := eval vm_compute in l in
               let k' := eval vm_compute in k in
               change l with l'; change k with k'
           end; cbn [Py.sum foldr]; lia|]).
  apply Forall_nil_2.
Qed.

(** X21: in the table of a solved model, the row of shift [s] has seven
    entries that add up to five times the headcount of the shift, and the
    column of day [d] adds up to the headcount on duty that day (the sum
    of the headcounts of the shifts working on [d]); for a feasible
    assignment and a demand vector of length 7 the column total is
    therefore at least the demand of the day. *)
Theorem schedule_rows_and_columns
    (staff : list Z) (varValue : string → Z) (p : LpProblem)
    (work : gmap nat Z) (sch : gmap nat (list Z)) (s d : nat) :
  prob staff = Some p → dct_work p varValue = Some work →
  dict_sch work = Some sch → (s < 7)%nat → (d < 7)%nat →
  (∃ row, sch !! s = Some row ∧ length row = 7%nat
          ∧ Py.sum row = 5 * headcount varValue s)
  ∧ Py.sum ((λ s', default 0 (sch !! s' ≫= (λ row, row !! d))) <$> seq 0 7)
      = Spec.coverage (headcount varValue) d
  ∧ (length staff = 7%nat → feasible p varValue →
       staff !!! d
       ≤ Py.sum ((λ s', default 0 (sch !! s' ≫= (λ row, row !! d)))
                   <$> seq 0 7)).
Proof.
  intros Hp Hwork Hsch Hs Hd.
  rewrite (dct_work_eq staff varValue p Hp) in Hwork.
  apply (inj Some) in Hwork. subst work.
  pose proof (proj2 (dict_sch_spec _) sch Hsch) as Hrows.
  assert (∀ s', (s' < 7)%nat →
            sch !! s' = Some ((λ d, if decide (d ∈ Spec.on_duty_days s')
                                    then headcount varValue s' else 0)
                                <$> seq 0 7)) as Hrow.
  { intros s' Hs'. rewrite Hrows, (work_lookup varValue s' Hs').
    by rewrite Nat.mod_small by lia. }
  assert (Py.sum ((λ s', default 0 (sch !! s' ≫= (λ row, row !! d)))
                    <$> seq 0 7)
          = Spec.coverage (headcount varValue) d) as Hcol.
  { rewrite <- (column_sum _ d Hd).
    apply (f_equal Py.sum), Forall_fmap_ext, Forall_forall.
    intros s' [_ Hs']%elem_of_seq. rewrite (Hrow s') by (simpl in Hs'; lia).
    cbn [mbind option_bind].
    rewrite list_lookup_fmap, lookup_seq_lt by lia. done. }
  split; [|split; [exact Hcol|]].
  - eexists. split; [by apply Hrow|].
    split; [by rewrite length_fmap, length_seq|by apply row_sum].
  - intros Hlen Hfeas. rewrite Hcol.
    apply (feasible_iff staff varValue p Hp) in Hfeas as [_ Hcov].
    rewrite Hlen in Hcov. exact (below_seven _ Hcov d Hd).
Qed.

Lemma schedule_rows_and_columns_witness :
  ∃ p work sch,
    prob n_staff = Some p ∧ dct_work p recorded_varValue = Some work
    ∧ dict_sch work = Some sch
    ∧ (∃ row, sch !! 4%nat = Some row ∧ length row = 7%nat
              ∧ Py.sum row = 5 * headcount recorded_varValue 4)
    ∧ Py.sum ((λ s', default 0 (sch !! s' ≫= (λ row, row !! 5%nat)))
                <$> seq 0 7)
        = Spec.coverage (headcount recorded_varValue) 5
    ∧ n_staff !!! 5%nat
      ≤ Py.sum ((λ s', default 0 (sch !! s' ≫= (λ row, row !! 5%nat)))
                  <$> seq 0 7).
Proof.
  destruct (prob n_staff) as [p|] eqn:Hp; [|by rewrite prob_eq in Hp].
  destruct (dct_work p recorded_varValue) as [work|] eqn:Hwork;
    [|by rewrite (dct_work_eq n_staff _ p Hp) in Hwork].
  destruct (dict_sch work) as [sch|] eqn:Hsch.
  2: { rewrite (dct_work_eq n_staff _ p Hp) in Hwork.
       apply (inj Some) in Hwork. subst work.
       by rewrite dict_sch_eq in Hsch. }
  exists p, work, sch.
  destruct (schedule_rows_and_columns n_staff recorded_varValue p work sch
              4 5 Hp Hwork Hsch ltac:(lia) ltac:(lia)) as (Hrow & Hcol & Hdem).
  split; [reflexivity|]. split; [exact Hwork|]. split; [exact Hsch|].
  split; [exact Hrow|]. split; [exact Hcol|].
  exact (Hdem eq_refl (recorded_feasible p Hp)).
Defined.

(** ** The labels of the synthetic shipments *)
Section Labelling.

Import Shipments.

Variables (distances : list Z) (shipping_modes weather : list string).
Variable draw : nat → Z.

Lemma step_labels (st : loop_state) (i : nat) (d : Z) (m w : string) :
  distances !! i = Some d → shipping_modes !! i = Some m →
  weather !! i = Some w →
  step distances shipping_modes weather draw st i
    = Some (st.1 ++ [if decide (forced d m w) then 1 else draw st.2],
            if decide (forced d m w) then st.2 else S st.2).
Proof.
  intros Hd Hm Hw. unfold step, Py.index. rewrite Hd. cbn [mbind option_bind].
  unfold forced.
  repeat match goal with
         | |- context [bool_decide ?P] =>
             destruct (bool_decide_reflect P);
             rewrite ?Hw, ?Hm; cbn [mbind option_bind]
         end;
    case_decide; try done; exfalso; tauto.
Qed.

Lemma run_succ (n : nat) :
  is_delayed (S n) distances shipping_modes weather draw
    = is_delayed n distances shipping_modes weather draw
        ≫= λ st, step distances shipping_modes weather draw st n.
Proof.
  unfold is_delayed, Py.range. rewrite !Nat.sub_0_r, seq_S, foldl_app. done.
Qed.

Lemma run_finished (n : nat) (st : loop_state) :
  is_delayed n distances shipping_modes weather draw = Some st →
  (n ≤ length distances)%nat ∧ length st.1 = n ∧ (st.2 ≤ n)%nat.
Proof.
  revert st. induction n as [|n IH]; intros st.
  - intros [= <-]. simpl. lia.
  - rewrite run_succ.
    destruct (is_delayed n distances shipping_modes weather draw) as [st'|];
      [|done].
    cbn [mbind option_bind]. intros Hstep.
    destruct (IH st' eq_refl) as (Hn & Hlen & Hk).
    unfold step, Py.index in Hstep.
    destruct (distances !! n) as [d|] eqn:Hd; [|done].
    apply lookup_lt_Some in Hd.
    cbn [mbind option_bind] in Hstep.
    repeat (case_match; simplify_option_eq; try done);
      rewrite ?length_app; simpl; lia.
Qed.

Lemma forced_at_iff (i : nat) (d : Z) (m w : string) :
  distances !! i = Some d → shipping_modes !! i = Some m →
  weather !! i = Some w → forced_at distances shipping_modes weather i ↔ forced d m w.
Proof. intros Hd Hm Hw. unfold forced_at. by rewrite Hd, Hm, Hw. Qed.

Lemma draws_before_succ (n : nat) :
  draws_before distances shipping_modes weather (S n)
    = (draws_before distances shipping_modes weather n
       + if decide (forced_at distances shipping_modes weather n)
         then 0 else 1)%nat.
Proof.
  unfold draws_before. rewrite seq_S, filter_app, length_app. f_equal.
  rewrite filter_cons, filter_nil. simpl.
  destruct (decide (¬ forced_at distances shipping_modes weather n)),
    (decide (forced_at distances shipping_modes weather n)); done.
Qed.

Lemma run_labels (n : nat) :
  (n ≤ length distances)%nat → (n ≤ length shipping_modes)%nat →
  (n ≤ length weather)%nat →
  ∃ labels,
    is_delayed n distances shipping_modes weather draw
      = Some (labels, draws_before distances shipping_modes weather n)
    ∧ length labels = n
    ∧ ∀ i, (i < n)%nat →
        labels !! i
        = Some (if decide (forced_at distances shipping_modes weather i) then 1
                            else draw (draws_before distances shipping_modes weather i)).
Proof.
  induction n as [|n IH]; intros Hd Hm Hw.
  - exists []. split; [done|]. split; [done|]. intros i Hi. lia.
  - destruct IH as (labels & Hrun & Hlen & Hlab); [lia..|].
    destruct (lookup_lt_is_Some_2 distances n ltac:(lia)) as [d Hdn].
    destruct (lookup_lt_is_Some_2 shipping_modes n ltac:(lia)) as [m Hmn].
    destruct (lookup_lt_is_Some_2 weather n ltac:(lia)) as [w Hwn].
    pose proof (forced_at_iff n d m w Hdn Hmn Hwn) as Hiff.
    exists (labels ++ [if decide (forced_at distances shipping_modes weather n) then 1
                       else draw (draws_before distances shipping_modes weather n)]).
    split; [|split].
    + rewrite run_succ, Hrun. cbn [mbind option_bind].
      rewrite (step_labels _ n d m w Hdn Hmn Hwn), draws_before_succ.
      cbn [fst snd].
      destruct (decide (forced d m w)),
        (decide (forced_at distances shipping_modes weather n));
        try tauto; repeat f_equal; lia.
    + rewrite length_app, Hlen. simpl. lia.
    + intros i Hi. destruct (decide (i = n)) as [->|Hne].
      * rewrite lookup_app_r by lia. rewrite Hlen, Nat.sub_diag. done.
      * rewrite lookup_app_l by lia. apply Hlab. lia.
Qed.

(** X22: when the three arrays hold at least [num_samples] entries, the
    loop labels every sample: it ends with [num_samples] labels, having
    made one draw for each sample that meets neither condition (so at
    most [num_samples] draws); and if every draw is 0 or 1, every label
    is 0 or 1. *)
Theorem is_delayed_labels_every_sample (n : nat) :
  (n ≤ length distances)%nat → (n ≤ length shipping_modes)%nat →
  (n ≤ length weather)%nat →
  ∃ labels k,
    is_delayed n distances shipping_modes weather draw = Some (labels, k)
    ∧ length labels = n
    ∧ k = draws_before distances shipping_modes weather n ∧ (k ≤ n)%nat
    ∧ ((∀ j, draw j = 0 ∨ draw j = 1) →
       Forall (λ l, l = 0 ∨ l = 1) labels).
Proof.
  intros Hd Hm Hw.
  destruct (run_labels n Hd Hm Hw) as (labels & Hrun & Hlen & Hlab).
  exists labels, (draws_before distances shipping_modes weather n).
  split; [done|]. split; [done|]. split; [done|].
  split; [exact (proj2 (proj2 (run_finished n _ Hrun)))|].
  intros Hdraw. apply Forall_lookup. intros i l Hi.
  assert (i < n)%nat as Hin by (rewrite <- Hlen; by eapply lookup_lt_Some).
  rewrite (Hlab i Hin) in Hi. injection Hi as <-.
  case_decide; [by right|apply Hdraw].
Qed.

(** X23: a shipment of more than 2000 km in a storm, and a shipment by
    ship in weather that is not clear, is labelled 1 whatever the draws;
    so a label 0 is only ever given to a shipment that meets neither
    condition, and then the label is one of the draws. *)
Theorem forced_shipments_are_delayed
    (n i : nat) (labels : list Z) (k : nat) (d : Z) (m w : string) :
  (n ≤ length distances)%nat → (n ≤ length shipping_modes)%nat →
  (n ≤ length weather)%nat →
  is_delayed n distances shipping_modes weather draw = Some (labels, k) →
  (i < n)%nat →
  distances !! i = Some d → shipping_modes !! i = Some m →
  weather !! i = Some w →
  (forced d m w → labels !! i = Some 1)
  ∧ (labels !! i = Some 0 → ¬ forced d m w)
  ∧ (¬ forced d m w → ∃ j, (j ≤ i)%nat ∧ labels !! i = Some (draw j)).
Proof.
  intros Hd Hm Hw Hrun Hi Hdi Hmi Hwi.
  destruct (run_labels n Hd Hm Hw) as (labels' & Hrun' & _ & Hlab).
  rewrite Hrun in Hrun'. injection Hrun' as <- _.
  specialize (Hlab i Hi).
  pose proof (forced_at_iff i d m w Hdi Hmi Hwi) as Hiff.
  rewrite Hlab. case_decide as Hf.
  - split; [done|]. split; [done|]. tauto.
  - split; [tauto|]. split; [tauto|]. intros _.
    eexists. split; [|done].
    unfold draws_before.
    transitivity (length (seq 0 i)); [apply length_filter|].
    by rewrite length_seq.
Qed.

(** X24: the loop reads [distances[i]] in every round: if it finishes,
    [distances] has at least [num_samples] entries (a shorter array
    raises [IndexError]), the list of labels has [num_samples] entries
    and at most [num_samples] draws were made. *)
Theorem is_delayed_needs_every_distance (n : nat) (labels : list Z) (k : nat) :
  is_delayed n distances shipping_modes weather draw = Some (labels, k) →
  (n ≤ length distances)%nat ∧ length labels = n ∧ (k ≤ n)%nat.
Proof. intros Hrun. exact (run_finished n _ Hrun). Qed.

End Labelling.

(** Three shipments: a long haul in a storm, a ship in the rain, a truck
    in clear weather. *)
Lemma is_delayed_labels_every_sample_witness :
  ∃ labels k,
    Shipments.is_delayed 3 [2500; 100; 1500] ["Air"; "Ship"; "Truck"]
      ["Storm"; "Rain"; "Clear"] (λ _, 0) = Some (labels, k)
    ∧ length labels = 3%nat
    ∧ k = Shipments.draws_before [2500; 100; 1500] ["Air"; "Ship"; "Truck"]
            ["Storm"; "Rain"; "Clear"] 3
    ∧ (k ≤ 3)%nat
    ∧ ((∀ j : nat, (λ _ : nat, 0) j = 0 ∨ (λ _ : nat, 0) j = 1) →
       Forall (λ l, l = 0 ∨ l = 1) labels).
Proof.
  apply (is_delayed_labels_every_sample [2500; 100; 1500]
           ["Air"; "Ship"; "Truck"] ["Storm"; "Rain"; "Clear"] (λ _, 0) 3);
    simpl; lia.
Defined.

Lemma forced_shipments_are_delayed_witness :
  (Shipments.forced 100 "Ship" "Rain" → [1; 1; 0] !! 1%nat = Some 1)
  ∧ ([1; 1; 0] !! 1%nat = Some 0 → ¬ Shipments.forced 100 "Ship" "Rain")
  ∧ (¬ Shipments.forced 100 "Ship" "Rain" →
     ∃ j, (j ≤ 1)%nat ∧ [1; 1; 0] !! 1%nat = Some ((λ _ : nat, 0) j)).
Proof.
  apply (forced_shipments_are_delayed [2500; 100; 1500]
           ["Air"; "Ship"; "Truck"] ["Storm"; "Rain"; "Clear"] (λ _, 0)
           3 1 [1; 1; 0] 1 100 "Ship" "Rain");
    first [reflexivity | simpl; lia].
Defined.

Lemma is_delayed_needs_every_distance_witness :
  (3 ≤ length [2500; 100; 1500])%nat ∧ length [1; 1; 0] = 3%nat ∧ (1 ≤ 3)%nat.
Proof.
  apply (is_delayed_needs_every_distance [2500; 100; 1500]
           ["Air"; "Ship"; "Truck"] ["Storm"; "Rain"; "Clear"] (λ _, 0)
           3 [1; 1; 0] 1).
  reflexivity.
Defined.
